(** * c_buffer: a ring buffer over a caller-supplied byte array

    Shallow embedding of [src/c_buffer.c] (the default build, without
    [NO_MEMCPY]) and the properties of its operations.

    Conventions of the embedding.
    - Machine integers are [Z]; every conversion the C code performs
      ([uint32_t] fields, [size_t] arithmetic, [int32_t] results) is written
      out with [to_uint32], [to_size_t] and [to_int32].  [size_t] is taken
      to be 64 bits wide.
    - A byte is a [Z]; an array is a [list Z].  The instance record carries
      the contents of the array its [data] pointer designates.
    - An access outside an array is undefined behaviour in C; it is the
      outcome [Fault] here.  The rotation loop runs on a step budget whose
      exhaustion is the outcome [OutOfFuel].
    - Pointer arguments are taken to be valid, so the [NULL] guards at the
      top of each function are not represented. *)

From Stdlib Require Import ZArith Lia List.
From stdpp Require Import base list.

Module CBuffer.

Local Open Scope Z_scope.

(** ** Integer conversions *)

Definition to_uint8 (x : Z) : Z := x mod 2 ^ 8.
Definition to_uint32 (x : Z) : Z := x mod 2 ^ 32.
Definition to_size_t (x : Z) : Z := x mod 2 ^ 64.
Definition to_int32 (x : Z) : Z := (x + 2 ^ 31) mod 2 ^ 32 - 2 ^ 31.

Definition INT32_MAX : Z := 2147483647.

(** ** Outcomes *)

Inductive result (A : Type) : Type :=
  | Ok (a : A)
  | Fault
  | OutOfFuel.

Arguments Ok {A} a.
Arguments Fault {A}.
Arguments OutOfFuel {A}.

Definition bind {A B : Type} (m : result A) (k : A -> result B) : result B :=
  match m with
  | Ok a => k a
  | Fault => Fault
  | OutOfFuel => OutOfFuel
  end.

Notation "x <- m ;; k" := (bind m (fun x => k))
  (at level 100, m at next level, right associativity).

(** ** Arrays *)

(** [a[i]] read. *)
Definition load (a : list Z) (i : Z) : result Z :=
  if (0 <=? i) && (i <? Z.of_nat (length a))
  then match a !! Z.to_nat i with Some v => Ok v | None => Fault end
  else Fault.

(** [a[i] = v]. *)
Definition store (a : list Z) (i : Z) (v : Z) : result (list Z) :=
  if (0 <=? i) && (i <? Z.of_nat (length a))
  then Ok (<[Z.to_nat i := v]> a)
  else Fault.

(** [memcpy(dst + doff, src + soff, n)]: the result is the new contents of
    the array [dst]. *)
Definition memcpy (dst : list Z) (doff : Z) (src : list Z) (soff : Z) (n : Z)
  : result (list Z) :=
  if (0 <=? doff) && (0 <=? soff) && (0 <=? n)
     && (doff + n <=? Z.of_nat (length dst))
     && (soff + n <=? Z.of_nat (length src))
  then Ok (take (Z.to_nat doff) dst
           ++ take (Z.to_nat n) (drop (Z.to_nat soff) src)
           ++ drop (Z.to_nat (doff + n)) dst)
  else Fault.

(** ** The instance (c_buffer.h) *)

Definition C_BUFFER_WRAPED : Z := 1.
Definition C_BUFFER_SUCCESS : Z := 0.
Definition C_BUFFER_NULL_ERROR : Z := -301.
Definition C_BUFFER_INSUFFICIENT : Z := -302.
Definition C_BUFFER_MISMATCH : Z := -303.

Record cBuffer_t : Type := mk_cBuffer {
  data : list Z;
  size : Z;
  head : Z;
  tail : Z
}.

Definition set_data (inst : cBuffer_t) (d : list Z) : cBuffer_t :=
  mk_cBuffer d (size inst) (head inst) (tail inst).
Definition set_head (inst : cBuffer_t) (h : Z) : cBuffer_t :=
  mk_cBuffer (data inst) (size inst) h (tail inst).
Definition set_tail (inst : cBuffer_t) (t : Z) : cBuffer_t :=
  mk_cBuffer (data inst) (size inst) (head inst) t.

(** ** Cursor arithmetic (c_buffer.c) *)

(** The macro [MODULO_INC]; [conv] is the conversion C applies to the sum,
    which depends on the operand types at the place of use. *)
Definition MODULO_INC (conv : Z -> Z) (value increment modulus : Z) : Z :=
  conv (value + increment) mod modulus.

Definition MODULO_DEC (value decrement modulus : Z) : Z :=
  to_size_t (value + modulus - decrement mod modulus) mod modulus.

Definition cBufferInit (inst : cBuffer_t) (buffer : list Z) (buffer_size : Z)
  : cBuffer_t * Z :=
  if buffer_size =? 0 then (inst, C_BUFFER_NULL_ERROR)
  else (mk_cBuffer buffer buffer_size 0 0, C_BUFFER_SUCCESS).

Definition cBufferFull (inst : cBuffer_t) : Z :=
  if MODULO_INC to_uint32 (head inst) 1 (size inst) =? tail inst then 1 else 0.

Definition cBufferEmpty (inst : cBuffer_t) : Z :=
  if head inst =? tail inst then 1 else 0.

Definition cBufferAvailableForRead (inst : cBuffer_t) : Z :=
  if head inst <? tail inst
  then to_int32 (to_size_t (size inst - tail inst + head inst))
  else to_int32 (to_uint32 (head inst - tail inst)).

Definition cBufferAvailableForWrite (inst : cBuffer_t) : Z :=
  if head inst <? tail inst
  then to_int32 (to_uint32 (tail inst - head inst - 1))
  else to_int32 (to_size_t (size inst - head inst + tail inst - 1)).

(** ** Writes *)

Definition cBufferPrepend (inst : cBuffer_t) (bytes : list Z) (data_size : Z)
  : result (cBuffer_t * Z) :=
  if data_size =? 0 then Ok (inst, C_BUFFER_SUCCESS)
  else if to_size_t (cBufferAvailableForWrite inst) <? data_size
  then Ok (inst, C_BUFFER_INSUFFICIENT)
  else if head inst =? tail inst then
    let inst := set_head inst 0 in
    let inst := set_tail inst (to_uint32 (to_size_t (size inst - data_size))) in
    d <- memcpy (data inst) (tail inst) bytes 0 data_size ;;
    Ok (set_data inst d, to_int32 data_size)
  else if tail inst <? data_size then
    let data_ind := to_size_t (data_size - tail inst) in
    d1 <- memcpy (data inst) 0 bytes data_ind (tail inst) ;;
    let new_tail := to_size_t (size inst - to_size_t (data_size - tail inst)) in
    d2 <- memcpy d1 new_tail bytes 0 (to_size_t (data_size - tail inst)) ;;
    Ok (set_tail (set_data inst d2) (to_uint32 new_tail), to_int32 data_size)
  else
    let inst := set_tail inst (to_uint32 (to_size_t (tail inst - data_size))) in
    d <- memcpy (data inst) (tail inst) bytes 0 data_size ;;
    Ok (set_data inst d, to_int32 data_size).

Definition cBufferPrependUint16 (inst : cBuffer_t) (v : Z)
  : result (cBuffer_t * Z) :=
  let tmp := [to_uint8 (Z.shiftr v 8); to_uint8 v] in
  cBufferPrepend inst tmp 2.

Definition cBufferPrependUint32 (inst : cBuffer_t) (v : Z)
  : result (cBuffer_t * Z) :=
  let tmp := [to_uint8 (Z.shiftr v 24); to_uint8 (Z.shiftr v 16);
              to_uint8 (Z.shiftr v 8); to_uint8 v] in
  cBufferPrepend inst tmp 4.

Definition cBufferPrependByte (inst : cBuffer_t) (byte : Z)
  : result (cBuffer_t * Z) :=
  if to_size_t (cBufferAvailableForWrite inst) <? 1
  then Ok (inst, C_BUFFER_INSUFFICIENT)
  else if head inst =? tail inst then
    let inst := set_head inst 0 in
    let inst := set_tail inst (to_uint32 (to_size_t (size inst - 1))) in
    d <- store (data inst) (tail inst) byte ;;
    Ok (set_data inst d, 1)
  else if tail inst =? 0 then
    let inst := set_tail inst (to_uint32 (to_size_t (size inst - 1))) in
    d <- store (data inst) (tail inst) byte ;;
    Ok (set_data inst d, 1)
  else
    let inst := set_tail inst (to_uint32 (tail inst - 1)) in
    d <- store (data inst) (tail inst) byte ;;
    Ok (set_data inst d, 1).

Definition cBufferAppend (inst : cBuffer_t) (bytes : list Z) (data_size : Z)
  : result (cBuffer_t * Z) :=
  if data_size =? 0 then Ok (inst, C_BUFFER_SUCCESS)
  else if to_size_t (cBufferAvailableForWrite inst) <? data_size
  then Ok (inst, C_BUFFER_INSUFFICIENT)
  else if size inst <? to_size_t (head inst + data_size) then
    let first_len := to_size_t (size inst - head inst) in
    d1 <- memcpy (data inst) (head inst) bytes 0 first_len ;;
    d2 <- memcpy d1 0 bytes first_len (to_size_t (data_size - first_len)) ;;
    Ok (set_head (set_data inst d2) (to_uint32 (to_size_t (data_size - first_len))),
        to_int32 data_size)
  else
    let new_head := to_size_t (head inst + data_size) in
    d <- memcpy (data inst) (head inst) bytes 0 data_size ;;
    Ok (set_head (set_data inst d) (to_uint32 new_head), to_int32 data_size).

Definition cBufferAppendByte (inst : cBuffer_t) (byte : Z)
  : result (cBuffer_t * Z) :=
  if to_size_t (cBufferAvailableForWrite inst) <? 1
  then Ok (inst, C_BUFFER_INSUFFICIENT)
  else
    let inst := if head inst =? tail inst
                then set_tail (set_head inst 0) 0 else inst in
    d <- store (data inst) (head inst) byte ;;
    let inst := set_data inst d in
    Ok (set_head inst (to_uint32 (MODULO_INC to_uint32 (head inst) 1 (size inst))), 1).

(** ** Reads

    The destination array of the caller is [out]; the functions return its
    new contents next to the instance and the status. *)

Definition cBufferReadAll (inst : cBuffer_t) (out : list Z) (max_read_size : Z)
  : result (cBuffer_t * list Z * Z) :=
  let num_bytes_in_buffer := cBufferAvailableForRead inst in
  if num_bytes_in_buffer <? C_BUFFER_SUCCESS
  then Ok (inst, out, num_bytes_in_buffer)
  else if max_read_size <? to_size_t num_bytes_in_buffer
  then Ok (inst, out, C_BUFFER_INSUFFICIENT)
  else
    out' <- (if head inst <? tail inst then
               let bytes_in_first := to_size_t (size inst - tail inst) in
               o1 <- memcpy out 0 (data inst) (tail inst) bytes_in_first ;;
               memcpy o1 bytes_in_first (data inst) 0
                      (to_size_t (num_bytes_in_buffer - bytes_in_first))
             else
               memcpy out 0 (data inst) (tail inst)
                      (to_size_t num_bytes_in_buffer)) ;;
    Ok (set_tail (set_head inst 0) 0, out', num_bytes_in_buffer).

Definition cBufferReadByte (inst : cBuffer_t) : result (cBuffer_t * Z) :=
  if negb (cBufferEmpty inst =? 0) then Ok (inst, 0)
  else
    byte <- load (data inst) (tail inst) ;;
    Ok (set_tail inst (to_uint32 (MODULO_INC to_uint32 (tail inst) 1 (size inst))),
        byte).

Definition cBufferReadBytes (inst : cBuffer_t) (out : list Z) (read_size : Z)
  : result (cBuffer_t * list Z * Z) :=
  let num_bytes_in_buffer := cBufferAvailableForRead inst in
  if num_bytes_in_buffer <? C_BUFFER_SUCCESS
  then Ok (inst, out, num_bytes_in_buffer)
  else if to_size_t num_bytes_in_buffer <? read_size
  then Ok (inst, out, C_BUFFER_MISMATCH)
  else
    out' <- (if head inst <? tail inst then
               let bytes_in_first := to_size_t (size inst - tail inst) in
               if read_size <=? bytes_in_first then
                 memcpy out 0 (data inst) (tail inst) bytes_in_first
               else
                 o1 <- memcpy out 0 (data inst) (tail inst) bytes_in_first ;;
                 memcpy o1 bytes_in_first (data inst) 0
                        (to_size_t (read_size - bytes_in_first))
             else
               memcpy out 0 (data inst) (tail inst) read_size) ;;
    Ok (set_tail inst
          (to_uint32 (MODULO_INC to_size_t (tail inst) read_size (size inst))),
        out', to_int32 read_size).

Definition cBufferClear (inst : cBuffer_t) : cBuffer_t * Z :=
  (set_tail (set_head inst 0) 0, C_BUFFER_SUCCESS).

(** ** Contiguation *)

(** The rotation loop of [cBufferContiguate].  The four pointers into the
    array are represented by the indices of the elements they designate. *)
Fixpoint rotate_loop (fuel : nat) (arr : list Z)
    (first_element next tail_element last_element : Z) : result (list Z) :=
  match fuel with
  | O => OutOfFuel
  | S fuel' =>
    if first_element =? next then Ok arr
    else
      temp <- load arr first_element ;;
      x <- load arr next ;;
      arr <- store arr first_element x ;;
      arr <- store arr next temp ;;
      let first_element := first_element + 1 in
      let next := if next =? last_element then tail_element else next + 1 in
      let tail_element :=
        if first_element =? tail_element then next else tail_element in
      rotate_loop fuel' arr first_element next tail_element last_element
  end.

Definition cBufferContiguate (fuel : nat) (inst : cBuffer_t)
  : result (cBuffer_t * Z) :=
  if negb (cBufferEmpty inst =? 0) then
    Ok (set_tail (set_head inst 0) 0, C_BUFFER_SUCCESS)
  else if (head inst <? tail inst) && negb (head inst =? 0) then
    let num_of_bytes := cBufferAvailableForRead inst in
    let last_element := to_size_t (size inst - 1) in
    let first_element := 0 in
    let tail_element := tail inst in
    let next := tail_element in
    d <- rotate_loop fuel (data inst)
           first_element next tail_element last_element ;;
    let inst := set_data inst d in
    let inst := set_tail inst 0 in
    Ok (set_head inst (to_uint32 num_of_bytes), C_BUFFER_SUCCESS)
  else Ok (inst, C_BUFFER_SUCCESS).

Definition cBufferIsContigous (inst : cBuffer_t) : Z :=
  if (head inst <? tail inst) && negb (head inst =? 0)
  then C_BUFFER_WRAPED else C_BUFFER_SUCCESS.

(** ** Zero-copy access

    A pointer into the array is the index of the element it designates;
    [None] is [NULL]. *)

Definition cBufferGetReadPointer (inst : cBuffer_t) : option Z :=
  if (head inst <? tail inst) && negb (head inst =? 0) then None
  else Some (tail inst).

Definition cBufferGetWritePointer (inst : cBuffer_t) : option Z :=
  Some (head inst).

Definition cBufferEmptyWrite (inst : cBuffer_t) (num_bytes : Z)
  : cBuffer_t * Z :=
  (set_head inst
     (to_uint32 (MODULO_INC to_size_t (head inst) num_bytes (size inst))),
   to_int32 num_bytes).

(** ** Specification vocabulary *)

(** A bound instance: the array has [size] cells, [size] is representable
    in the [int32_t] the queries return, and both cursors are inside the
    array. *)
Record wf (b : cBuffer_t) : Prop := mk_wf {
  wf_size : 0 < size b <= INT32_MAX;
  wf_data : Z.of_nat (length (data b)) = size b;
  wf_head : 0 <= head b < size b;
  wf_tail : 0 <= tail b < size b
}.

(** The same, except that the write cursor may sit one past the last cell,
    where [cBufferAppend] leaves it after filling the array up to its end. *)
Record wf_end (b : cBuffer_t) : Prop := mk_wf_end {
  wfe_size : 0 < size b <= INT32_MAX;
  wfe_data : Z.of_nat (length (data b)) = size b;
  wfe_head : 0 <= head b <= size b;
  wfe_tail : 0 <= tail b < size b;
  wfe_gap : head b = size b -> 0 < tail b
}.

(** The logical content: the bytes from the read cursor up to the write
    cursor, walking forward circularly. *)
Definition content (b : cBuffer_t) : list Z :=
  if head b <? tail b
  then drop (Z.to_nat (tail b)) (data b) ++ take (Z.to_nat (head b)) (data b)
  else take (Z.to_nat (head b - tail b)) (drop (Z.to_nat (tail b)) (data b)).

(** Big-endian decoding of four bytes. *)
Definition decode_be32 (o : list Z) : option Z :=
  match o with
  | b0 :: b1 :: b2 :: b3 :: _ =>
      Some (Z.lor (Z.lor (Z.lor (Z.shiftl b0 24) (Z.shiftl b1 16))
                         (Z.shiftl b2 8)) b3)
  | _ => None
  end.

(** Big-endian decoding of two bytes. *)
Definition decode_be16 (o : list Z) : option Z :=
  match o with
  | b0 :: b1 :: _ => Some (Z.lor (Z.shiftl b0 8) b1)
  | _ => None
  end.

(** The number of bytes [cBufferReadBytes] copies when asked for [n]: the
    whole block up to the end of the array when the content wraps and the
    request fits in that block, [n] otherwise. *)
Definition bytes_copied (b : cBuffer_t) (n : Z) : Z :=
  if (head b <? tail b) && (n <=? size b - tail b)
  then size b - tail b else n.

(** Boolean form of [wf], for concrete instances. *)
Definition wfb (b : cBuffer_t) : bool :=
  (0 <? size b) && (size b <=? INT32_MAX)
  && (Z.of_nat (length (data b)) =? size b)
  && (0 <=? head b) && (head b <? size b)
  && (0 <=? tail b) && (tail b <? size b).

(** ** Concrete instances *)

(** A fresh 4-byte buffer. *)
Definition small_buffer : cBuffer_t := mk_cBuffer [0; 0; 0; 0] 4 0 0.

(** A wrapped buffer: 7 bytes stored, [6; 7; 8; 9; 10] at the end of the
    array and [11; 12] at its start. *)
Definition wrapped_example : cBuffer_t :=
  mk_cBuffer [11; 12; 3; 4; 5; 6; 7; 8; 9; 10] 10 2 5.

(** Two payload bytes prepended to an empty 10-byte buffer. *)
Definition prepended_example : cBuffer_t :=
  mk_cBuffer [0; 0; 0; 0; 0; 0; 0; 0; 170; 187] 10 0 8.

(** Five bytes appended to an empty 10-byte buffer, two of them read. *)
Definition contiguous_example : cBuffer_t :=
  mk_cBuffer [1; 2; 3; 4; 5; 0; 0; 0; 0; 0] 10 5 2.

(** A full 4-byte buffer: three bytes stored, no room left. *)
Definition full_example : cBuffer_t := mk_cBuffer [1; 2; 3; 0] 4 3 0.

(** ** Basic facts *)

Ltac ltb_true := rewrite (proj2 (Z.ltb_lt _ _)) by lia.
Ltac ltb_false := rewrite (proj2 (Z.ltb_ge _ _)) by lia.
Ltac eqb_true := rewrite (proj2 (Z.eqb_eq _ _)) by lia.
Ltac eqb_false := rewrite (proj2 (Z.eqb_neq _ _)) by lia.

Lemma to_uint32_small (x : Z) : 0 <= x < 2 ^ 32 -> to_uint32 x = x.
Proof. intros H. unfold to_uint32. apply Z.mod_small. exact H. Qed.

Lemma to_size_t_small (x : Z) : 0 <= x < 2 ^ 64 -> to_size_t x = x.
Proof. intros H. unfold to_size_t. apply Z.mod_small. exact H. Qed.

Lemma to_int32_small (x : Z) : - 2 ^ 31 <= x < 2 ^ 31 -> to_int32 x = x.
Proof. intros H. unfold to_int32. rewrite Z.mod_small; lia. Qed.

Lemma wf_wf_end (b : cBuffer_t) : wf b -> wf_end b.
Proof. intros [Hs Hd Hh Ht]. split; auto; lia. Qed.

(** [cBufferAppend] splits the copy only when [head + data_size > size], so
    a write that ends exactly at the end of the array leaves [head = size].
    The lemmas on reads below are therefore stated for [wf_end]. *)
Example append_up_to_end :
  cBufferAppend (mk_cBuffer (replicate 10 0) 10 5 5) [1; 2; 3; 4; 5] 5 =
    Ok (mk_cBuffer [0; 0; 0; 0; 0; 1; 2; 3; 4; 5] 10 10 5, 5).
Proof. vm_compute. reflexivity. Qed.

Lemma wfb_wf (b : cBuffer_t) : wfb b = true -> wf b.
Proof.
  unfold wfb. intros H.
  repeat (apply andb_prop in H; destruct H as [H ?]).
  rewrite ?Z.ltb_lt, ?Z.leb_le, ?Z.eqb_eq in *. split; lia.
Qed.

Lemma available_for_read_eq (b : cBuffer_t) :
  wf_end b ->
  cBufferAvailableForRead b =
    if head b <? tail b then size b - tail b + head b else head b - tail b.
Proof.
  intros [Hs Hd Hh Ht _]. unfold cBufferAvailableForRead, INT32_MAX in *.
  destruct (head b <? tail b) eqn:E; [apply Z.ltb_lt in E | apply Z.ltb_ge in E].
  - rewrite to_size_t_small, to_int32_small; lia.
  - rewrite to_uint32_small, to_int32_small; lia.
Qed.

Lemma available_for_write_eq (b : cBuffer_t) :
  wf_end b ->
  cBufferAvailableForWrite b =
    if head b <? tail b then tail b - head b - 1
    else size b - head b + tail b - 1.
Proof.
  intros [Hs Hd Hh Ht Hg]. unfold cBufferAvailableForWrite, INT32_MAX in *.
  destruct (head b <? tail b) eqn:E; [apply Z.ltb_lt in E | apply Z.ltb_ge in E].
  - rewrite to_uint32_small, to_int32_small; lia.
  - assert (0 <= size b - head b + tail b - 1) by lia.
    rewrite to_size_t_small, to_int32_small; lia.
Qed.

(** ** Capacity accounting *)

(** C4: for cursors inside the array, the readable and the writable byte
    counts add up to [size - 1]. *)
Theorem available_read_write_sum (b : cBuffer_t) :
  0 < size b <= INT32_MAX ->
  0 <= head b < size b ->
  0 <= tail b < size b ->
  cBufferAvailableForRead b + cBufferAvailableForWrite b = size b - 1.
Proof.
  intros Hs Hh Ht.
  unfold cBufferAvailableForRead, cBufferAvailableForWrite, INT32_MAX in *.
  destruct (head b <? tail b) eqn:E; [apply Z.ltb_lt in E | apply Z.ltb_ge in E].
  - rewrite to_size_t_small, to_uint32_small, !to_int32_small; lia.
  - rewrite to_size_t_small, to_uint32_small, !to_int32_small; lia.
Qed.

Lemma available_read_write_sum_witness :
  cBufferAvailableForRead wrapped_example
  + cBufferAvailableForWrite wrapped_example = size wrapped_example - 1.
Proof.
  apply (available_read_write_sum wrapped_example);
    unfold INT32_MAX; simpl; lia.
Defined.

(** ** Reasoning about arrays *)

Lemma lookup_app_decide (l1 l2 : list Z) (i : nat) :
  (l1 ++ l2) !! i =
    if decide (i < length l1)%nat then l1 !! i else l2 !! (i - length l1)%nat.
Proof.
  case_decide.
  - apply lookup_app_l. assumption.
  - apply lookup_app_r. lia.
Qed.

Ltac list_simp :=
  repeat first
    [ rewrite lookup_app_decide | rewrite lookup_take | rewrite lookup_drop
    | rewrite length_app | rewrite length_take | rewrite length_drop ].

Ltac list_pre :=
  change (Z.to_nat 0) with 0%nat;
  rewrite ?Z.add_0_l, ?take_0, ?drop_0, ?app_nil_l, ?app_nil_r.

Ltac lookup_close :=
  first
    [ reflexivity
    | lia
    | f_equal; lia
    | apply lookup_ge_None_2; list_simp; lia
    | symmetry; apply lookup_ge_None_2; list_simp; lia
    | transitivity (@None Z);
      [ apply lookup_ge_None_2 | symmetry; apply lookup_ge_None_2 ];
      list_simp; lia ].

(** Equality of two arrays built from [take], [drop] and [++], cell by cell. *)
Ltac list_pointwise :=
  list_pre; apply list_eq; intros ?;
  list_simp; repeat (case_decide; [try lia; list_simp ..]);
  lookup_close.

Lemma memcpy_ok (dst : list Z) (doff : Z) (src : list Z) (soff n : Z) :
  0 <= doff -> 0 <= soff -> 0 <= n ->
  doff + n <= Z.of_nat (length dst) ->
  soff + n <= Z.of_nat (length src) ->
  memcpy dst doff src soff n =
    Ok (take (Z.to_nat doff) dst
        ++ take (Z.to_nat n) (drop (Z.to_nat soff) src)
        ++ drop (Z.to_nat (doff + n)) dst).
Proof.
  intros H1 H2 H3 H4 H5. unfold memcpy.
  apply Z.leb_le in H1, H2, H3, H4, H5.
  rewrite H1, H2, H3, H4, H5. reflexivity.
Qed.

Lemma memcpy_length (dst : list Z) (doff : Z) (src : list Z) (soff n : Z)
    (r : list Z) :
  memcpy dst doff src soff n = Ok r -> length r = length dst.
Proof.
  unfold memcpy.
  destruct (_ && _) eqn:E; [| discriminate].
  intros [= <-].
  repeat (apply andb_prop in E; destruct E as [E ?]).
  rewrite ?Z.leb_le in *.
  list_simp. lia.
Qed.

(** [memcpy] with offsets and length given as naturals. *)
Lemma memcpy_nat (dst : list Z) (doff : Z) (src : list Z) (soff n : Z)
    (doff' soff' n' : nat) :
  doff = Z.of_nat doff' -> soff = Z.of_nat soff' -> n = Z.of_nat n' ->
  (doff' + n' <= length dst)%nat ->
  (soff' + n' <= length src)%nat ->
  memcpy dst doff src soff n =
    Ok (take doff' dst ++ take n' (drop soff' src) ++ drop (doff' + n') dst).
Proof.
  intros -> -> -> H1 H2. rewrite memcpy_ok by lia.
  rewrite <- Nat2Z.inj_add, !Nat2Z.id. reflexivity.
Qed.

(** The cursors and the size of a bound instance as naturals. *)
Lemma wf_end_nat (b : cBuffer_t) :
  wf_end b ->
  exists h t : nat,
    head b = Z.of_nat h /\ tail b = Z.of_nat t /\
    size b = Z.of_nat (length (data b)) /\
    (h <= length (data b))%nat /\ (t < length (data b))%nat /\
    (h = length (data b) -> 0 < t)%nat /\
    Z.of_nat (length (data b)) <= INT32_MAX.
Proof.
  intros [Hs Hd Hh Ht Hg].
  exists (Z.to_nat (head b)), (Z.to_nat (tail b)). repeat split; lia.
Qed.

Ltac nat_cursors b Hwf h t :=
  let Hh := fresh "Hh" in let Ht := fresh "Ht" in let Hsz := fresh "Hsz" in
  let Hhb := fresh "Hhb" in let Htb := fresh "Htb" in
  let Hg := fresh "Hg" in let Hmax := fresh "Hmax" in
  destruct (wf_end_nat b Hwf) as (h & t & Hh & Ht & Hsz & Hhb & Htb & Hg & Hmax);
  destruct b as [?d ?sz ?hd ?tl]; cbn [data size head tail] in *;
  subst; unfold INT32_MAX in *.

Ltac wf_end_close :=
  split; cbn [data size head tail set_head set_data set_tail];
  unfold INT32_MAX; list_simp; lia.

Lemma content_length (b : cBuffer_t) :
  wf_end b -> Z.of_nat (length (content b)) = cBufferAvailableForRead b.
Proof.
  intros Hwf. rewrite available_for_read_eq by exact Hwf.
  destruct Hwf as [Hs Hd Hh Ht Hg]. unfold content.
  destruct (head b <? tail b) eqn:E; [apply Z.ltb_lt in E | apply Z.ltb_ge in E];
    list_simp; lia.
Qed.

(** ** Reading everything *)

Lemma read_all_ok (b : cBuffer_t) (out : list Z) (max_read_size : Z) :
  wf_end b ->
  cBufferAvailableForRead b <= max_read_size ->
  cBufferAvailableForRead b <= Z.of_nat (length out) ->
  cBufferReadAll b out max_read_size =
    Ok (set_tail (set_head b 0) 0,
        content b ++ drop (length (content b)) out,
        cBufferAvailableForRead b).
Proof.
  intros Hwf Hmax Hout.
  unfold cBufferReadAll, content.
  rewrite available_for_read_eq in * by exact Hwf.
  nat_cursors b Hwf h t. unfold C_BUFFER_SUCCESS.
  destruct (Z.of_nat h <? Z.of_nat t) eqn:E;
    [apply Z.ltb_lt in E | apply Z.ltb_ge in E].
  - rewrite !to_size_t_small by lia.
    replace (_ <? 0) with false by (symmetry; apply Z.ltb_ge; lia).
    replace (max_read_size <? _) with false by (symmetry; apply Z.ltb_ge; lia).
    rewrite (memcpy_nat out _ _ _ _ 0%nat t (length d - t)%nat) by lia.
    cbn [bind].
    rewrite (memcpy_nat _ _ _ _ _ (length d - t)%nat 0%nat h);
      [| lia | lia | lia | list_simp; lia | lia].
    cbn [bind]. do 2 f_equal. f_equal.
    list_pointwise.
  - rewrite !to_size_t_small by lia.
    replace (_ <? 0) with false by (symmetry; apply Z.ltb_ge; lia).
    replace (max_read_size <? _) with false by (symmetry; apply Z.ltb_ge; lia).
    rewrite (memcpy_nat out _ _ _ _ 0%nat t (h - t)%nat) by lia.
    cbn [bind]. do 2 f_equal. f_equal.
    list_pointwise.
Qed.

(** C7: [cBufferReadAll] refuses with [C_BUFFER_INSUFFICIENT] when more is
    stored than [max_read_size]; otherwise it copies the whole logical
    content, in order, to the front of [out], sets both cursors to 0 and
    returns the number of bytes that were stored. *)
Theorem read_all_spec (b : cBuffer_t) (out : list Z) (max_read_size : Z) :
  wf b ->
  max_read_size <= Z.of_nat (length out) ->
  (cBufferAvailableForRead b > max_read_size ->
     cBufferReadAll b out max_read_size = Ok (b, out, C_BUFFER_INSUFFICIENT))
  /\
  (cBufferAvailableForRead b <= max_read_size ->
     cBufferReadAll b out max_read_size =
       Ok (mk_cBuffer (data b) (size b) 0 0,
           content b ++ drop (length (content b)) out,
           cBufferAvailableForRead b)
     /\ Z.of_nat (length (content b)) = cBufferAvailableForRead b).
Proof.
  intros Hwf Hout. apply wf_wf_end in Hwf. split.
  - intros Hgt. unfold cBufferReadAll.
    rewrite available_for_read_eq in * by exact Hwf.
    destruct Hwf as [Hs Hd Hh Ht Hg]. unfold INT32_MAX, C_BUFFER_SUCCESS in *.
    destruct (head b <? tail b) eqn:E;
      [apply Z.ltb_lt in E | apply Z.ltb_ge in E];
      rewrite to_size_t_small by lia; ltb_false; ltb_true; reflexivity.
  - intros Hle. split; [| apply content_length; exact Hwf].
    rewrite read_all_ok by (auto; lia). reflexivity.
Qed.

Lemma read_all_spec_witness :
  cBufferReadAll wrapped_example (replicate 8 0) 8 =
    Ok (mk_cBuffer [11; 12; 3; 4; 5; 6; 7; 8; 9; 10] 10 0 0,
        [6; 7; 8; 9; 10; 11; 12; 0], 7)
  /\ cBufferReadAll wrapped_example (replicate 8 0) 3 =
       Ok (wrapped_example, replicate 8 0, C_BUFFER_INSUFFICIENT).
Proof.
  split.
  - refine (proj1 (proj2 (read_all_spec wrapped_example (replicate 8 0) 8 _ _) _)).
    + apply wfb_wf. reflexivity.
    + simpl. lia.
    + vm_compute. discriminate.
  - refine (proj1 (read_all_spec wrapped_example (replicate 8 0) 3 _ _) _).
    + apply wfb_wf. reflexivity.
    + simpl. lia.
    + vm_compute. reflexivity.
Defined.

(** ** Appending to and prepending to an empty buffer *)

Lemma append_empty_ok (b : cBuffer_t) (s : list Z) :
  wf b -> head b = tail b ->
  Z.of_nat (length s) <= size b - 1 ->
  exists b1,
    cBufferAppend b s (Z.of_nat (length s)) = Ok (b1, Z.of_nat (length s))
    /\ wf_end b1 /\ content b1 = s.
Proof.
  intros Hwf Hemp Hlen.
  assert (Hwf' := Hwf). destruct Hwf' as [_ _ [_ Hlt] _].
  apply wf_wf_end in Hwf.
  unfold cBufferAppend. rewrite available_for_write_eq by exact Hwf.
  destruct (Z.eq_dec (Z.of_nat (length s)) 0) as [Hz | Hnz].
  - rewrite Hz. cbn [Z.eqb]. exists b. split; [reflexivity |].
    split; [exact Hwf |]. unfold content. rewrite Hemp, Z.ltb_irrefl, Z.sub_diag.
    destruct s; [reflexivity | discriminate].
  - eqb_false. nat_cursors b Hwf h t.
    assert (h = t) by lia. subst t.
    rewrite Z.ltb_irrefl. rewrite !to_size_t_small by lia. ltb_false.
    destruct (Z.ltb_spec (Z.of_nat (length d)) (Z.of_nat h + Z.of_nat (length s)))
      as [Hwrap | Hfit].
    + rewrite !to_size_t_small by lia.
      rewrite (memcpy_nat d _ _ _ _ h 0%nat (length d - h)%nat) by lia.
      cbn [bind].
      rewrite (memcpy_nat _ _ _ _ _ 0%nat (length d - h)%nat
                 (length s - (length d - h))%nat);
        [| lia | lia | lia | list_simp; lia | lia].
      cbn [bind]. rewrite to_uint32_small, to_int32_small by lia.
      eexists. split; [reflexivity |]. split.
      * wf_end_close.
      * unfold content; cbn [data size head tail set_head set_data].
        ltb_true.
        replace (Z.to_nat (Z.of_nat h)) with h by lia.
        replace (Z.to_nat (_ - _)) with (length s - (length d - h))%nat by lia.
        list_pointwise.
    + rewrite (memcpy_nat d _ _ _ _ h 0%nat (length s)) by lia.
      cbn [bind]. rewrite to_uint32_small, to_int32_small by lia.
      eexists. split; [reflexivity |]. split.
      * wf_end_close.
      * unfold content; cbn [data size head tail set_head set_data].
        ltb_false.
        replace (Z.to_nat (Z.of_nat h)) with h by lia.
        replace (Z.to_nat (_ - _)) with (length s) by lia.
        list_pointwise.
Qed.

(** C1: appending [s] (at most [size - 1] bytes) to an empty buffer returns
    [length s], and reading everything right after returns [length s] and
    puts exactly [s], in order, at the front of [out]. *)
Theorem append_then_read_all (b : cBuffer_t) (s out : list Z)
    (max_read_size : Z) :
  wf b -> head b = tail b ->
  Z.of_nat (length s) <= size b - 1 ->
  Z.of_nat (length s) <= max_read_size ->
  (length s <= length out)%nat ->
  exists b1 b2,
    cBufferAppend b s (Z.of_nat (length s)) = Ok (b1, Z.of_nat (length s))
    /\ cBufferReadAll b1 out max_read_size =
         Ok (b2, s ++ drop (length s) out, Z.of_nat (length s)).
Proof.
  intros Hwf Hemp Hlen Hmax Hout.
  destruct (append_empty_ok b s Hwf Hemp Hlen) as (b1 & Happ & Hwf1 & Hc).
  pose proof (content_length b1 Hwf1) as Hn. rewrite Hc in Hn.
  exists b1, (set_tail (set_head b1 0) 0). split; [exact Happ |].
  rewrite read_all_ok by (auto; lia). rewrite Hc, Hn. reflexivity.
Qed.

Lemma append_then_read_all_witness :
  exists b1 b2,
    cBufferAppend (mk_cBuffer [0; 0; 0; 0; 0] 5 3 3) [1; 2; 3; 4] 4 = Ok (b1, 4)
    /\ cBufferReadAll b1 [9; 9; 9; 9; 9] 5 = Ok (b2, [1; 2; 3; 4; 9], 4).
Proof.
  apply (append_then_read_all (mk_cBuffer [0; 0; 0; 0; 0] 5 3 3)
           [1; 2; 3; 4] [9; 9; 9; 9; 9] 5).
  - apply wfb_wf. reflexivity.
  - reflexivity.
  - simpl. lia.
  - simpl. lia.
  - simpl. lia.
Defined.

Lemma prepend_empty_ok (b : cBuffer_t) (s : list Z) :
  wf b -> head b = tail b ->
  Z.of_nat (length s) <= size b - 1 ->
  exists b1,
    cBufferPrepend b s (Z.of_nat (length s)) = Ok (b1, Z.of_nat (length s))
    /\ wf_end b1 /\ content b1 = s.
Proof.
  intros Hwf Hemp Hlen.
  assert (Hwf' := Hwf). destruct Hwf' as [_ _ [_ Hlt] _].
  apply wf_wf_end in Hwf.
  unfold cBufferPrepend. rewrite available_for_write_eq by exact Hwf.
  destruct (Z.eq_dec (Z.of_nat (length s)) 0) as [Hz | Hnz].
  - rewrite Hz. cbn [Z.eqb]. exists b. split; [reflexivity |].
    split; [exact Hwf |]. unfold content. rewrite Hemp, Z.ltb_irrefl, Z.sub_diag.
    destruct s; [reflexivity | discriminate].
  - eqb_false. nat_cursors b Hwf h t.
    assert (h = t) by lia. subst t.
    rewrite Z.ltb_irrefl. rewrite !to_size_t_small by lia. ltb_false.
    rewrite Z.eqb_refl. cbn [data size head tail set_head set_tail].
    rewrite !to_size_t_small, to_uint32_small by lia.
    rewrite (memcpy_nat d _ _ _ _ (length d - length s)%nat 0%nat (length s))
      by lia.
    cbn [bind]. rewrite to_int32_small by lia.
    eexists. split; [reflexivity |]. split.
    + wf_end_close.
    + unfold content; cbn [data size head tail set_head set_data set_tail].
      ltb_true.
      replace (Z.to_nat (_ - _)) with (length d - length s)%nat by lia.
      list_pointwise.
Qed.

(** C6: prepending [s] (at most [size - 1] bytes) to an empty buffer returns
    [length s], and reading everything right after returns [length s] and
    puts exactly [s], in order, at the front of [out]. *)
Theorem prepend_then_read_all (b : cBuffer_t) (s out : list Z)
    (max_read_size : Z) :
  wf b -> head b = tail b ->
  Z.of_nat (length s) <= size b - 1 ->
  Z.of_nat (length s) <= max_read_size ->
  (length s <= length out)%nat ->
  exists b1 b2,
    cBufferPrepend b s (Z.of_nat (length s)) = Ok (b1, Z.of_nat (length s))
    /\ cBufferReadAll b1 out max_read_size =
         Ok (b2, s ++ drop (length s) out, Z.of_nat (length s)).
Proof.
  intros Hwf Hemp Hlen Hmax Hout.
  destruct (prepend_empty_ok b s Hwf Hemp Hlen) as (b1 & Hpre & Hwf1 & Hc).
  pose proof (content_length b1 Hwf1) as Hn. rewrite Hc in Hn.
  exists b1, (set_tail (set_head b1 0) 0). split; [exact Hpre |].
  rewrite read_all_ok by (auto; lia). rewrite Hc, Hn. reflexivity.
Qed.

Lemma prepend_then_read_all_witness :
  exists b1 b2,
    cBufferPrepend (mk_cBuffer [0; 0; 0; 0; 0] 5 3 3) [1; 2; 3; 4] 4 = Ok (b1, 4)
    /\ cBufferReadAll b1 [9; 9; 9; 9; 9] 5 = Ok (b2, [1; 2; 3; 4; 9], 4).
Proof.
  apply (prepend_then_read_all (mk_cBuffer [0; 0; 0; 0; 0] 5 3 3)
           [1; 2; 3; 4] [9; 9; 9; 9; 9] 5).
  - apply wfb_wf. reflexivity.
  - reflexivity.
  - simpl. lia.
  - simpl. lia.
  - simpl. lia.
Defined.

(** ** Reading one byte *)

(** C8: on a non-empty buffer [cBufferReadByte] returns the byte under the
    read cursor and advances that cursor by one modulo [size]; on an empty
    buffer it returns 0 and moves nothing. *)
Theorem read_byte_spec (b : cBuffer_t) :
  wf b ->
  (head b <> tail b ->
     exists v, data b !! Z.to_nat (tail b) = Some v /\
       cBufferReadByte b =
         Ok (mk_cBuffer (data b) (size b) (head b) ((tail b + 1) mod size b), v))
  /\
  (head b = tail b -> cBufferReadByte b = Ok (b, 0)).
Proof.
  intros [Hs Hd Hh Ht]. unfold cBufferReadByte, cBufferEmpty, INT32_MAX in *.
  split.
  - intros Hne. rewrite (proj2 (Z.eqb_neq (head b) (tail b)) Hne).
    cbn [Z.eqb negb].
    destruct (lookup_lt_is_Some_2 (data b) (Z.to_nat (tail b))) as [v Hv];
      [lia |].
    exists v. split; [exact Hv |].
    unfold load. rewrite Hv.
    replace (0 <=? tail b) with true by (symmetry; apply Z.leb_le; lia).
    ltb_true. cbn [andb bind].
    unfold MODULO_INC, set_tail.
    rewrite (to_uint32_small (tail b + 1)) by lia.
    rewrite to_uint32_small; [reflexivity |].
    pose proof (Z.mod_pos_bound (tail b + 1) (size b)). lia.
  - intros Heq. rewrite (proj2 (Z.eqb_eq (head b) (tail b)) Heq). reflexivity.
Qed.

Lemma read_byte_spec_witness :
  exists v,
    data wrapped_example !! Z.to_nat (tail wrapped_example) = Some v
    /\ cBufferReadByte wrapped_example =
         Ok (mk_cBuffer [11; 12; 3; 4; 5; 6; 7; 8; 9; 10] 10 2 6, v).
Proof.
  refine (proj1 (read_byte_spec wrapped_example _) _).
  - apply wfb_wf. reflexivity.
  - simpl. lia.
Defined.

(** ** Refusals leave everything as it was *)

Lemma insufficient_room (b : cBuffer_t) (n : Z) :
  wf b -> 0 <= n ->
  (to_size_t (cBufferAvailableForWrite b) <? n) = false ->
  n <= INT32_MAX.
Proof.
  intros Hwf Hn Hchk. apply wf_wf_end in Hwf.
  rewrite available_for_write_eq in Hchk by exact Hwf.
  destruct Hwf as [Hs Hd Hh Ht Hg]. unfold INT32_MAX in *.
  apply Z.ltb_ge in Hchk.
  destruct (head b <? tail b) eqn:E;
    [apply Z.ltb_lt in E | apply Z.ltb_ge in E];
    rewrite to_size_t_small in Hchk by lia; lia.
Qed.

Lemma prepend_refusal (b : cBuffer_t) (bytes : list Z) (data_size : Z)
    (b' : cBuffer_t) (r : Z) :
  wf b -> 0 <= data_size ->
  cBufferPrepend b bytes data_size = Ok (b', r) ->
  r = C_BUFFER_INSUFFICIENT -> b' = b.
Proof.
  intros Hwf Hn. unfold cBufferPrepend.
  destruct (data_size =? 0) eqn:Ez; [intros [= <- <-]; reflexivity |].
  apply Z.eqb_neq in Ez.
  destruct (_ <? data_size) eqn:Echk; [intros [= <- <-]; reflexivity |].
  pose proof (insufficient_room b data_size Hwf Hn Echk) as Hb.
  unfold INT32_MAX, C_BUFFER_INSUFFICIENT in *.
  assert (Hr : to_int32 data_size <> -302)
    by (rewrite to_int32_small; lia).
  repeat (match goal with
          | |- context [if ?c then _ else _] => destruct c
          | |- context [memcpy ?a ?b ?c ?d ?e] => destruct (memcpy a b c d e)
          end; cbn [bind]);
    try discriminate; intros [= <- <-]; congruence.
Qed.

(** C5: whenever a write returns [C_BUFFER_INSUFFICIENT], [cBufferReadAll]
    returns [C_BUFFER_INSUFFICIENT] or [cBufferReadBytes] returns
    [C_BUFFER_MISMATCH], the instance (cursors and array) and the
    destination array are exactly what they were before the call; and these
    refusals are what the functions return when the request does not fit. *)
Theorem refusal_changes_nothing (b : cBuffer_t) (bytes out : list Z)
    (data_size read_size max_read_size byte v16 v32 : Z) :
  wf b -> 0 <= data_size -> 0 <= read_size ->
  (forall b' r, cBufferAppend b bytes data_size = Ok (b', r) ->
     r = C_BUFFER_INSUFFICIENT -> b' = b) /\
  (forall b' r, cBufferPrepend b bytes data_size = Ok (b', r) ->
     r = C_BUFFER_INSUFFICIENT -> b' = b) /\
  (forall b' r, cBufferAppendByte b byte = Ok (b', r) ->
     r = C_BUFFER_INSUFFICIENT -> b' = b) /\
  (forall b' r, cBufferPrependByte b byte = Ok (b', r) ->
     r = C_BUFFER_INSUFFICIENT -> b' = b) /\
  (forall b' r, cBufferPrependUint16 b v16 = Ok (b', r) ->
     r = C_BUFFER_INSUFFICIENT -> b' = b) /\
  (forall b' r, cBufferPrependUint32 b v32 = Ok (b', r) ->
     r = C_BUFFER_INSUFFICIENT -> b' = b) /\
  (forall b' out' r, cBufferReadBytes b out read_size = Ok (b', out', r) ->
     r = C_BUFFER_MISMATCH -> b' = b /\ out' = out) /\
  (forall b' out' r, cBufferReadAll b out max_read_size = Ok (b', out', r) ->
     r = C_BUFFER_INSUFFICIENT -> b' = b /\ out' = out) /\
  (data_size <> 0 -> cBufferAvailableForWrite b < data_size ->
     cBufferAppend b bytes data_size = Ok (b, C_BUFFER_INSUFFICIENT) /\
     cBufferPrepend b bytes data_size = Ok (b, C_BUFFER_INSUFFICIENT)) /\
  (cBufferAvailableForWrite b < 1 ->
     cBufferAppendByte b byte = Ok (b, C_BUFFER_INSUFFICIENT) /\
     cBufferPrependByte b byte = Ok (b, C_BUFFER_INSUFFICIENT)) /\
  (cBufferAvailableForWrite b < 2 ->
     cBufferPrependUint16 b v16 = Ok (b, C_BUFFER_INSUFFICIENT)) /\
  (cBufferAvailableForWrite b < 4 ->
     cBufferPrependUint32 b v32 = Ok (b, C_BUFFER_INSUFFICIENT)) /\
  (cBufferAvailableForRead b < read_size ->
     cBufferReadBytes b out read_size = Ok (b, out, C_BUFFER_MISMATCH)) /\
  (max_read_size < cBufferAvailableForRead b ->
     cBufferReadAll b out max_read_size = Ok (b, out, C_BUFFER_INSUFFICIENT)).
Proof.
  intros Hwf Hn Hm.
  assert (Hwe := wf_wf_end b Hwf).
  assert (Hw : 0 <= cBufferAvailableForWrite b <= INT32_MAX).
  { rewrite available_for_write_eq by exact Hwe.
    destruct Hwf as [Hs Hd Hh Ht]. unfold INT32_MAX in *.
    destruct (head b <? tail b) eqn:E;
      [apply Z.ltb_lt in E | apply Z.ltb_ge in E]; lia. }
  assert (Hr : 0 <= cBufferAvailableForRead b <= INT32_MAX).
  { rewrite available_for_read_eq by exact Hwe.
    destruct Hwf as [Hs Hd Hh Ht]. unfold INT32_MAX in *.
    destruct (head b <? tail b) eqn:E;
      [apply Z.ltb_lt in E | apply Z.ltb_ge in E]; lia. }
  unfold INT32_MAX in *.
  repeat apply conj.
  - (* append *)
    intros b' r. unfold cBufferAppend.
    destruct (data_size =? 0) eqn:Ez; [intros [= <- <-]; reflexivity |].
    apply Z.eqb_neq in Ez.
    destruct (_ <? data_size) eqn:Echk; [intros [= <- <-]; reflexivity |].
    pose proof (insufficient_room b data_size Hwf Hn Echk) as Hb.
    unfold INT32_MAX, C_BUFFER_INSUFFICIENT in *.
    assert (to_int32 data_size <> -302) by (rewrite to_int32_small; lia).
    repeat (match goal with
            | |- context [if ?c then _ else _] => destruct c
            | |- context [memcpy ?a ?b ?c ?d ?e] => destruct (memcpy a b c d e)
            end; cbn [bind]);
      try discriminate; intros [= <- <-]; congruence.
  - intros b' r. apply prepend_refusal; assumption.
  - (* append byte *)
    intros b' r. unfold cBufferAppendByte.
    destruct (_ <? 1); [intros [= <- <-]; reflexivity |].
    destruct (store _ _ _); cbn [bind]; try discriminate.
    intros [= <- <-]. discriminate.
  - (* prepend byte *)
    intros b' r. unfold cBufferPrependByte.
    destruct (_ <? 1); [intros [= <- <-]; reflexivity |].
    repeat (match goal with
            | |- context [if ?c then _ else _] => destruct c
            | |- context [store ?a ?b ?c] => destruct (store a b c)
            end; cbn [bind]);
      try discriminate; intros [= <- <-]; discriminate.
  - intros b' r. unfold cBufferPrependUint16. apply prepend_refusal; [assumption | lia].
  - intros b' r. unfold cBufferPrependUint32. apply prepend_refusal; [assumption | lia].
  - (* read bytes *)
    intros b' out' r. unfold cBufferReadBytes, C_BUFFER_SUCCESS, C_BUFFER_MISMATCH.
    destruct (_ <? 0) eqn:Eneg; [apply Z.ltb_lt in Eneg; lia |].
    destruct (_ <? read_size) eqn:Echk; [intros [= <- <- <-]; split; reflexivity |].
    apply Z.ltb_ge in Echk. rewrite to_size_t_small in Echk by lia.
    assert (to_int32 read_size <> -303) by (rewrite to_int32_small; lia).
    match goal with
    | |- context [bind ?m _] => destruct m
    end; cbn [bind]; try discriminate; intros [= <- <- <-]; congruence.
  - (* read all *)
    intros b' out' r. unfold cBufferReadAll, C_BUFFER_SUCCESS, C_BUFFER_INSUFFICIENT.
    destruct (_ <? 0) eqn:Eneg; [apply Z.ltb_lt in Eneg; lia |].
    destruct (max_read_size <? _) eqn:Echk; [intros [= <- <- <-]; split; reflexivity |].
    match goal with
    | |- context [bind ?m _] => destruct m
    end; cbn [bind]; try discriminate; intros [= <- <- <-]; lia.
  - intros Hnz Hlt. split.
    + unfold cBufferAppend. eqb_false.
      rewrite to_size_t_small by lia. ltb_true. reflexivity.
    + unfold cBufferPrepend. eqb_false.
      rewrite to_size_t_small by lia. ltb_true. reflexivity.
  - intros Hlt. split.
    + unfold cBufferAppendByte. rewrite to_size_t_small by lia.
      ltb_true. reflexivity.
    + unfold cBufferPrependByte. rewrite to_size_t_small by lia.
      ltb_true. reflexivity.
  - intros Hlt. unfold cBufferPrependUint16, cBufferPrepend. cbn [Z.eqb].
    rewrite to_size_t_small by lia. ltb_true. reflexivity.
  - intros Hlt. unfold cBufferPrependUint32, cBufferPrepend. cbn [Z.eqb].
    rewrite to_size_t_small by lia. ltb_true. reflexivity.
  - intros Hlt. unfold cBufferReadBytes, C_BUFFER_SUCCESS. ltb_false.
    rewrite to_size_t_small by lia. ltb_true. reflexivity.
  - intros Hlt. unfold cBufferReadAll, C_BUFFER_SUCCESS. ltb_false.
    rewrite to_size_t_small by lia. ltb_true. reflexivity.
Qed.

Lemma refusal_changes_nothing_witness :
  cBufferAppend full_example [9] 1 = Ok (full_example, C_BUFFER_INSUFFICIENT)
  /\ cBufferPrependUint32 full_example 7 =
       Ok (full_example, C_BUFFER_INSUFFICIENT)
  /\ cBufferReadBytes full_example [0; 0; 0; 0] 4 =
       Ok (full_example, [0; 0; 0; 0], C_BUFFER_MISMATCH)
  /\ cBufferReadAll full_example [0; 0; 0; 0] 2 =
       Ok (full_example, [0; 0; 0; 0], C_BUFFER_INSUFFICIENT).
Proof.
  destruct (refusal_changes_nothing full_example [9] [0; 0; 0; 0] 1 4 2 7 7 7)
    as (_ & _ & _ & _ & _ & _ & _ & _ & Hw & _ & _ & H32 & Hr & Ha).
  - apply wfb_wf. reflexivity.
  - lia.
  - lia.
  - split; [apply Hw; [lia | vm_compute; reflexivity] |].
    split; [apply H32; vm_compute; reflexivity |].
    split; [apply Hr; vm_compute; reflexivity |].
    apply Ha. vm_compute. reflexivity.
Defined.

(** ** Committing a zero-copy write *)

(** C10, as far as it holds: [cBufferEmptyWrite] performs no check against
    the free space.  For every count [n] whose sum with the write cursor
    does not wrap in [size_t], it sets the write cursor to
    [(head + n) mod size], leaves the read cursor and the array alone and
    returns [n] converted to [int32_t]: that is [n] up to [INT32_MAX], and a
    different value for every larger [n]. *)
Theorem empty_write_spec (b : cBuffer_t) (n : Z) :
  wf b -> 0 <= n -> head b + n < 2 ^ 64 ->
  cBufferEmptyWrite b n =
    (mk_cBuffer (data b) (size b) ((head b + n) mod size b) (tail b),
     to_int32 n)
  /\ (n <= INT32_MAX -> to_int32 n = n)
  /\ (INT32_MAX < n -> to_int32 n <> n).
Proof.
  intros [Hs Hd Hh Ht] Hn Hsum. unfold INT32_MAX in *. split; [| split].
  - unfold cBufferEmptyWrite, MODULO_INC, set_head.
    rewrite to_size_t_small by lia.
    pose proof (Z.mod_pos_bound (head b + n) (size b)).
    rewrite to_uint32_small by lia. reflexivity.
  - intros Hle. apply to_int32_small. lia.
  - intros Hgt. unfold to_int32.
    pose proof (Z.mod_pos_bound (n + 2 ^ 31) (2 ^ 32)). lia.
Qed.

Lemma empty_write_spec_witness :
  cBufferAvailableForWrite small_buffer = 3
  /\ cBufferEmptyWrite small_buffer 9 = (mk_cBuffer [0; 0; 0; 0] 4 1 0, 9)
  /\ cBufferEmptyWrite small_buffer 4294966995
     = (mk_cBuffer [0; 0; 0; 0] 4 3 0, -301).
Proof.
  split; [reflexivity |]. split.
  - refine (proj1 (empty_write_spec small_buffer 9 _ _ _)).
    + apply wfb_wf. reflexivity.
    + lia.
    + simpl. lia.
  - refine (proj1 (empty_write_spec small_buffer 4294966995 _ _ _)).
    + apply wfb_wf. reflexivity.
    + lia.
    + simpl. lia.
Defined.

(** C10 as stated, for every [size_t] count, fails: a count above
    [INT32_MAX] does not come back as the result.  Here the count
    [2^32 - 301] comes back as [-301], the value of [C_BUFFER_NULL_ERROR]. *)
Lemma empty_write_count_above_int32 :
  wf small_buffer /\ 0 <= 4294966995 < 2 ^ 64 /\
  cBufferEmptyWrite small_buffer 4294966995 =
    (mk_cBuffer [0; 0; 0; 0] 4 3 0, C_BUFFER_NULL_ERROR) /\
  snd (cBufferEmptyWrite small_buffer 4294966995) <> 4294966995.
Proof.
  split; [split; vm_compute; auto; split; congruence |].
  split; [lia |]. split; [reflexivity |]. vm_compute. discriminate.
Qed.

(** ** Reading a given number of bytes *)

Lemma read_bytes_ok (b : cBuffer_t) (out : list Z) (n : Z) :
  wf_end b ->
  0 <= n <= cBufferAvailableForRead b ->
  bytes_copied b n <= Z.of_nat (length out) ->
  cBufferReadBytes b out n =
    Ok (mk_cBuffer (data b) (size b) (head b) ((tail b + n) mod size b),
        take (Z.to_nat (bytes_copied b n)) (content b)
          ++ drop (Z.to_nat (bytes_copied b n)) out,
        n).
Proof.
  intros Hwf Hn Hout.
  unfold cBufferReadBytes, bytes_copied, content, MODULO_INC, set_tail in *.
  rewrite available_for_read_eq in * by exact Hwf.
  nat_cursors b Hwf h t. unfold C_BUFFER_SUCCESS.
  assert (Hmod : 0 <= (Z.of_nat t + n) mod Z.of_nat (length d) < Z.of_nat (length d))
    by (apply Z.mod_pos_bound; lia).
  destruct (Z.of_nat h <? Z.of_nat t) eqn:E;
    [apply Z.ltb_lt in E | apply Z.ltb_ge in E]; cbn [andb] in *.
  - rewrite (to_size_t_small (_ + Z.of_nat h)) by lia.
    rewrite (to_size_t_small (Z.of_nat t + n)) by lia.
    rewrite (to_size_t_small (_ - Z.of_nat t)) by lia.
    replace (_ <? 0) with false by (symmetry; apply Z.ltb_ge; lia).
    replace (_ <? n) with false by (symmetry; apply Z.ltb_ge; lia).
    rewrite to_uint32_small, to_int32_small by lia.
    destruct (Z.leb_spec n (Z.of_nat (length d) - Z.of_nat t)) as [Hfit | Hsplit].
    + rewrite (memcpy_nat out _ _ _ _ 0%nat t (length d - t)%nat) by lia.
      cbn [bind]. do 2 f_equal. f_equal.
      replace (Z.to_nat _) with (length d - t)%nat by lia.
      list_pointwise.
    + rewrite to_size_t_small by lia.
      rewrite (memcpy_nat out _ _ _ _ 0%nat t (length d - t)%nat) by lia.
      cbn [bind].
      rewrite (memcpy_nat _ _ _ _ _ (length d - t)%nat 0%nat
                 (Z.to_nat n - (length d - t))%nat);
        [| lia | lia | lia | list_simp; lia | lia].
      cbn [bind]. do 2 f_equal. f_equal.
      replace (Z.to_nat (Z.of_nat t)) with t by lia.
      replace (Z.to_nat (Z.of_nat h)) with h by lia.
      list_pointwise.
  - replace (_ <? 0) with false by (symmetry; apply Z.ltb_ge; lia).
    rewrite (to_size_t_small (Z.of_nat t + n)) by lia.
    rewrite (to_size_t_small (_ - Z.of_nat t)) by lia.
    replace (_ <? n) with false by (symmetry; apply Z.ltb_ge; lia).
    rewrite to_uint32_small, to_int32_small by lia.
    rewrite (memcpy_nat out _ _ _ _ 0%nat t (Z.to_nat n)) by lia.
    cbn [bind]. do 2 f_equal. f_equal.
    replace (Z.to_nat (Z.of_nat t)) with t by lia.
    replace (Z.to_nat (_ - _)) with (h - t)%nat by lia.
    list_pointwise.
Qed.

Lemma memcpy_inv (dst : list Z) (doff : Z) (src : list Z) (soff n : Z)
    (r : list Z) :
  memcpy dst doff src soff n = Ok r ->
  0 <= doff /\ 0 <= soff /\ 0 <= n /\
  doff + n <= Z.of_nat (length dst) /\ soff + n <= Z.of_nat (length src).
Proof.
  unfold memcpy. destruct (_ && _) eqn:E; [| discriminate]. intros _.
  repeat (apply andb_prop in E; destruct E as [E ?]).
  rewrite ?Z.leb_le in *. lia.
Qed.

(** [cBufferReadBytes] returns only if the destination has room for all the
    bytes it copies. *)
Lemma read_bytes_room (b : cBuffer_t) (out : list Z) (n : Z)
    (x : cBuffer_t * list Z * Z) :
  wf_end b ->
  0 <= n <= cBufferAvailableForRead b ->
  cBufferReadBytes b out n = Ok x ->
  bytes_copied b n <= Z.of_nat (length out).
Proof.
  intros Hwf Hn.
  unfold cBufferReadBytes, bytes_copied.
  rewrite available_for_read_eq in * by exact Hwf.
  destruct Hwf as [Hs Hd Hh Ht Hg]. unfold INT32_MAX, C_BUFFER_SUCCESS in *.
  destruct (head b <? tail b) eqn:E;
    [apply Z.ltb_lt in E | apply Z.ltb_ge in E]; cbn [andb].
  - rewrite (to_size_t_small (_ + head b)) by lia.
    rewrite (to_size_t_small (_ - tail b)) by lia.
    replace (_ <? 0) with false by (symmetry; apply Z.ltb_ge; lia).
    replace (_ <? n) with false by (symmetry; apply Z.ltb_ge; lia).
    destruct (Z.leb_spec n (size b - tail b)) as [Hfit | Hsplit].
    + destruct (memcpy _ _ _ _ _) eqn:Em; cbn [bind]; try discriminate.
      apply memcpy_inv in Em. lia.
    + destruct (memcpy out _ _ _ _) as [o1 | |] eqn:Em1; cbn [bind];
        try discriminate.
      destruct (memcpy o1 _ _ _ _) eqn:Em2; cbn [bind]; try discriminate.
      apply memcpy_length in Em1. apply memcpy_inv in Em2.
      rewrite to_size_t_small in Em2 by lia. lia.
  - replace (_ <? 0) with false by (symmetry; apply Z.ltb_ge; lia).
    rewrite (to_size_t_small (_ - tail b)) by lia.
    replace (_ <? n) with false by (symmetry; apply Z.ltb_ge; lia).
    destruct (memcpy _ _ _ _ _) eqn:Em; cbn [bind]; try discriminate.
    apply memcpy_inv in Em. lia.
Qed.

(** What [cBufferReadBytes] gets right: the first [n] cells of the
    destination are the first [n] bytes of the logical content, the read
    cursor advances by [n] modulo [size], and the result is [n]. *)
Lemma read_bytes_front (b : cBuffer_t) (out : list Z) (n : Z)
    (b' : cBuffer_t) (out' : list Z) (r : Z) :
  wf_end b ->
  0 <= n <= cBufferAvailableForRead b ->
  cBufferReadBytes b out n = Ok (b', out', r) ->
  b' = mk_cBuffer (data b) (size b) (head b) ((tail b + n) mod size b)
  /\ take (Z.to_nat n) out' = take (Z.to_nat n) (content b)
  /\ r = n.
Proof.
  intros Hwf Hn Hrun.
  pose proof (read_bytes_room b out n _ Hwf Hn Hrun) as Hroom.
  rewrite read_bytes_ok in Hrun by assumption.
  injection Hrun as <- <- <-. split; [reflexivity |]. split; [| reflexivity].
  pose proof (content_length b Hwf) as Hlen.
  assert (Hc : n <= bytes_copied b n <= cBufferAvailableForRead b).
  { unfold bytes_copied.
    rewrite available_for_read_eq in * by exact Hwf.
    destruct Hwf as [Hs Hd Hhd Htl Hg].
    destruct (head b <? tail b) eqn:E;
      [apply Z.ltb_lt in E | apply Z.ltb_ge in E]; cbn [andb]; [| lia].
    destruct (Z.leb_spec n (size b - tail b)); lia. }
  rewrite take_app_le by (rewrite length_take; lia).
  rewrite take_take. f_equal. lia.
Qed.

(** [cBufferPrepend] on any bound instance with enough room: the bytes are
    put in front of the logical content. *)
Lemma prepend_ok (b : cBuffer_t) (s : list Z) :
  wf b ->
  Z.of_nat (length s) <= cBufferAvailableForWrite b ->
  exists b1,
    cBufferPrepend b s (Z.of_nat (length s)) = Ok (b1, Z.of_nat (length s))
    /\ wf b1 /\ content b1 = s ++ content b.
Proof.
  intros Hwf Hroom.
  destruct (Z.eq_dec (head b) (tail b)) as [Hemp | Hne].
  { assert (Hwe := wf_wf_end b Hwf).
    rewrite available_for_write_eq in Hroom by exact Hwe.
    rewrite Hemp, Z.ltb_irrefl in Hroom.
    destruct (prepend_empty_ok b s Hwf Hemp) as (b1 & Hrun & Hwf1 & Hc); [lia |].
    exists b1. split; [exact Hrun |]. split.
    - revert Hrun. unfold cBufferPrepend.
      destruct (_ =? 0); [intros [= <- _]; exact Hwf |].
      destruct (_ <? _); [intros [= <- _]; exact Hwf |].
      rewrite (proj2 (Z.eqb_eq _ _) Hemp).
      destruct (memcpy _ _ _ _ _); cbn [bind]; try discriminate.
      intros [= <- _]. destruct Hwf1 as [Hs1 Hd1 Hh1 Ht1 Hg1].
      cbn [data size head tail set_data set_head set_tail] in *.
      split; cbn [data size head tail set_data set_head set_tail]; lia.
    - rewrite Hc. unfold content. rewrite Hemp, Z.ltb_irrefl, Z.sub_diag.
      rewrite take_0, app_nil_r. reflexivity. }
  assert (Hlt : head b < size b) by (destruct Hwf; lia).
  apply wf_wf_end in Hwf.
  unfold cBufferPrepend. rewrite available_for_write_eq in * by exact Hwf.
  destruct (Z.eq_dec (Z.of_nat (length s)) 0) as [Hz | Hnz].
  { rewrite Hz. cbn [Z.eqb]. exists b. split; [reflexivity |].
    destruct Hwf as [Hs Hd Hh Ht Hg].
    split; [split; auto; lia |]. destruct s; [reflexivity | discriminate]. }
  eqb_false. nat_cursors b Hwf h t.
  rewrite (proj2 (Z.eqb_neq (Z.of_nat h) (Z.of_nat t))) by lia.
  destruct (Z.of_nat h <? Z.of_nat t) eqn:E;
    [apply Z.ltb_lt in E | apply Z.ltb_ge in E].
  - (* the free room lies between the cursors *)
    rewrite (to_size_t_small (_ - 1)) by lia. ltb_false. ltb_false.
    cbn [data size head tail set_data set_head set_tail].
    rewrite to_size_t_small, to_uint32_small by lia.
    rewrite (memcpy_nat d _ _ _ _ (t - length s)%nat 0%nat (length s)) by lia.
    cbn [bind]. rewrite to_int32_small by lia.
    eexists. split; [reflexivity |]. split.
    + split; cbn [data size head tail set_data set_tail]; unfold INT32_MAX;
        list_simp; lia.
    + unfold content; cbn [data size head tail set_data set_tail].
      ltb_true. ltb_true.
      replace (Z.to_nat (_ - _)) with (t - length s)%nat by lia.
      rewrite !Nat2Z.id. list_pointwise.
  - rewrite (to_size_t_small (_ - 1)) by lia. ltb_false.
    destruct (Z.ltb_spec (Z.of_nat t) (Z.of_nat (length s))) as [Hwrap | Hfit].
    + (* the bytes go around the start of the array *)
      rewrite !(to_size_t_small (Z.of_nat (length s) - Z.of_nat t)) by lia.
      rewrite to_size_t_small by lia.
      rewrite (memcpy_nat d _ _ _ _ 0%nat (length s - t)%nat t) by lia.
      cbn [bind].
      rewrite (memcpy_nat _ _ _ _ _ (length d - (length s - t))%nat 0%nat
                 (length s - t)%nat);
        [| lia | lia | lia | list_simp; lia | lia].
      cbn [bind]. rewrite to_uint32_small, to_int32_small by lia.
      eexists. split; [reflexivity |]. split.
      * split; cbn [data size head tail set_data set_tail]; unfold INT32_MAX;
          list_simp; lia.
      * unfold content; cbn [data size head tail set_data set_tail].
        ltb_true. ltb_false.
        replace (Z.to_nat (_ - (_ - _))) with (length d - (length s - t))%nat by lia.
        replace (Z.to_nat (_ - _)) with (h - t)%nat by lia.
        rewrite !Nat2Z.id. list_pointwise.
    + cbn [data size head tail set_data set_head set_tail].
      rewrite to_size_t_small, to_uint32_small by lia.
      rewrite (memcpy_nat d _ _ _ _ (t - length s)%nat 0%nat (length s)) by lia.
      cbn [bind]. rewrite to_int32_small by lia.
      eexists. split; [reflexivity |]. split.
      * split; cbn [data size head tail set_data set_tail]; unfold INT32_MAX;
          list_simp; lia.
      * unfold content; cbn [data size head tail set_data set_tail].
        ltb_false. ltb_false.
        replace (Z.to_nat (_ - (_ - _))) with (h - t + length s)%nat by lia.
        replace (Z.to_nat (Z.of_nat t - _)) with (t - length s)%nat by lia.
        replace (Z.to_nat (_ - _)) with (h - t)%nat by lia.
        rewrite !Nat2Z.id. list_pointwise.
Qed.

(** *** Big-endian bytes of a 32-bit value *)

Lemma byte_bit (v k n : Z) :
  0 <= k -> 0 <= n ->
  Z.testbit (Z.shiftl (to_uint8 (Z.shiftr v k)) k) n =
    (k <=? n) && (n <? k + 8) && Z.testbit v n.
Proof.
  intros Hk Hn. unfold to_uint8.
  rewrite Z.shiftl_spec, Z.testbit_mod_pow2 by lia.
  destruct (Z.leb_spec k n) as [Hle | Hgt].
  - rewrite Z.shiftr_spec by lia. replace (n - k + k) with n by lia.
    cbn [andb]. f_equal.
    destruct (Z.ltb_spec (n - k) 8), (Z.ltb_spec n (k + 8)); lia || reflexivity.
  - rewrite (Z.testbit_neg_r _ (n - k)) by lia. rewrite andb_false_r. reflexivity.
Qed.

Lemma be32_roundtrip (v : Z) :
  0 <= v < 2 ^ 32 ->
  Z.lor (Z.lor (Z.lor (Z.shiftl (to_uint8 (Z.shiftr v 24)) 24)
                      (Z.shiftl (to_uint8 (Z.shiftr v 16)) 16))
               (Z.shiftl (to_uint8 (Z.shiftr v 8)) 8))
        (to_uint8 v) = v.
Proof.
  intros Hv. apply Z.bits_inj'. intros n Hn.
  rewrite !Z.lor_spec, !byte_bit by lia.
  unfold to_uint8. rewrite Z.testbit_mod_pow2 by lia.
  assert (Hhigh : Z.testbit v n = (n <? 32) && Z.testbit v n).
  { rewrite <- (Z.mod_small v (2 ^ 32)) at 1 by exact Hv.
    apply Z.testbit_mod_pow2. lia. }
  rewrite Hhigh.
  destruct (Z.testbit v n); rewrite ?andb_false_r, ?andb_true_r;
    [| reflexivity].
  destruct (Z.leb_spec 24 n), (Z.leb_spec 16 n), (Z.leb_spec 8 n),
    (Z.ltb_spec n 32), (Z.ltb_spec n 24), (Z.ltb_spec n 16), (Z.ltb_spec n 8);
    cbn; lia || reflexivity.
Qed.

(** What holds of C9: after [cBufferPrependUint32] on a buffer with room for
    4 bytes, a read of 4 bytes that returns delivers the big-endian bytes of
    the value; it returns if and only if the destination has room for
    [bytes_copied] bytes, which can be more than 4. *)
Lemma prepend_uint32_then_read (b : cBuffer_t) (v : Z) :
  wf b -> 4 <= cBufferAvailableForWrite b -> 0 <= v < 2 ^ 32 ->
  exists b1,
    cBufferPrependUint32 b v = Ok (b1, 4) /\ wf b1 /\
    (forall out, bytes_copied b1 4 <= Z.of_nat (length out) ->
       exists b2 out', cBufferReadBytes b1 out 4 = Ok (b2, out', 4)) /\
    (forall out b2 out' r,
       cBufferReadBytes b1 out 4 = Ok (b2, out', r) ->
       r = 4 /\ decode_be32 out' = Some v).
Proof.
  intros Hwf Hroom Hv. unfold cBufferPrependUint32.
  set (tmp := [to_uint8 (Z.shiftr v 24); to_uint8 (Z.shiftr v 16);
               to_uint8 (Z.shiftr v 8); to_uint8 v]).
  destruct (prepend_ok b tmp Hwf) as (b1 & Hrun & Hwf1 & Hc); [exact Hroom |].
  change (Z.of_nat (length tmp)) with 4 in Hrun.
  exists b1. split; [exact Hrun |]. split; [exact Hwf1 |].
  assert (Hwe1 := wf_wf_end b1 Hwf1).
  assert (Havail : 0 <= 4 <= cBufferAvailableForRead b1).
  { rewrite <- (content_length b1 Hwe1), Hc, length_app.
    change (length tmp) with 4%nat. lia. }
  split.
  - intros out Hout. do 2 eexists. apply read_bytes_ok; assumption.
  - intros out b2 out' r Hread.
    destruct (read_bytes_front b1 out 4 b2 out' r Hwe1 Havail Hread)
      as (_ & Hfront & ->).
    split; [reflexivity |].
    rewrite Hc in Hfront. change (take (Z.to_nat 4) (tmp ++ content b)) with tmp in Hfront.
    rewrite <- (take_drop (Z.to_nat 4) out'), Hfront.
    cbn [decode_be32 tmp app]. f_equal. apply be32_roundtrip. exact Hv.
Qed.

Lemma wrapped_example_reachable :
  exists b1 b2 o,
    cBufferAppend (fst (cBufferInit (mk_cBuffer [] 0 0 0) (replicate 10 0) 10))
                  [1; 2; 3; 4; 5; 6; 7] 7 = Ok (b1, 7)
    /\ cBufferReadBytes b1 (replicate 5 0) 5 = Ok (b2, o, 5)
    /\ cBufferAppend b2 [8; 9; 10; 11; 12] 5 = Ok (wrapped_example, 5).
Proof. do 3 eexists. repeat split; vm_compute; reflexivity. Qed.

(** C2 at a wrapped buffer: asked for 1 byte, [cBufferReadBytes] copies the
    5 bytes up to the end of the array.  Cells 1 to 4 of a 5-byte
    destination are overwritten, and a 1-byte destination is overrun. *)
Theorem read_bytes_copies_whole_first_block :
  wf wrapped_example /\
  content wrapped_example = [6; 7; 8; 9; 10; 11; 12] /\
  cBufferReadBytes wrapped_example [0; 0; 0; 0; 0] 1 =
    Ok (mk_cBuffer [11; 12; 3; 4; 5; 6; 7; 8; 9; 10] 10 2 6,
        [6; 7; 8; 9; 10], 1) /\
  cBufferReadBytes wrapped_example [0] 1 = Fault.
Proof.
  split; [split; vm_compute; auto; split; congruence |].
  repeat split; vm_compute; reflexivity.
Qed.

(** ** Prepending a 32-bit integer *)

Lemma prepended_example_reachable :
  cBufferPrepend (fst (cBufferInit (mk_cBuffer [] 0 0 0) (replicate 10 0) 10))
                 [170; 187] 2 = Ok (prepended_example, 2).
Proof. vm_compute. reflexivity. Qed.

(** C9 at a buffer that holds two bytes: after [cBufferPrependUint32] the
    read of 4 bytes copies 6, so a 4-byte destination is overrun; a 6-byte
    destination receives the big-endian bytes followed by the payload. *)
Theorem prepend_uint32_read_overruns :
  wf prepended_example /\
  4 <= cBufferAvailableForWrite prepended_example /\
  cBufferPrependUint32 prepended_example 16909060 =
    Ok (mk_cBuffer [0; 0; 0; 0; 1; 2; 3; 4; 170; 187] 10 0 4, 4) /\
  cBufferReadBytes (mk_cBuffer [0; 0; 0; 0; 1; 2; 3; 4; 170; 187] 10 0 4)
                   [0; 0; 0; 0] 4 = Fault /\
  cBufferReadBytes (mk_cBuffer [0; 0; 0; 0; 1; 2; 3; 4; 170; 187] 10 0 4)
                   [0; 0; 0; 0; 0; 0] 4 =
    Ok (mk_cBuffer [0; 0; 0; 0; 1; 2; 3; 4; 170; 187] 10 0 8,
        [1; 2; 3; 4; 170; 187], 4).
Proof.
  split; [split; vm_compute; auto; split; congruence |].
  split; [vm_compute; discriminate |].
  repeat split; vm_compute; reflexivity.
Qed.

(** ** Contiguation *)

Lemma load_at (l l1 : list Z) (x : Z) (l2 : list Z) (i : Z) :
  l = l1 ++ x :: l2 -> i = Z.of_nat (length l1) -> load l i = Ok x.
Proof.
  intros -> ->. unfold load. rewrite Nat2Z.id, list_lookup_middle by reflexivity.
  rewrite length_app. cbn [length].
  replace (0 <=? _) with true by (symmetry; apply Z.leb_le; lia).
  ltb_true. reflexivity.
Qed.

Lemma store_at (l l1 : list Z) (x : Z) (l2 : list Z) (i v : Z) :
  l = l1 ++ x :: l2 -> i = Z.of_nat (length l1) ->
  store l i v = Ok (l1 ++ v :: l2).
Proof.
  intros -> ->. unfold store. rewrite Nat2Z.id.
  rewrite length_app. cbn [length].
  replace (0 <=? _) with true by (symmetry; apply Z.leb_le; lia).
  ltb_true. cbn [andb]. f_equal.
  replace (length l1) with (length l1 + 0)%nat at 1 by lia.
  rewrite insert_app_r. reflexivity.
Qed.

Ltac len_norm := repeat first [rewrite length_app | progress cbn [length]].
Ltac app_norm := cbn [app]; repeat (rewrite <- app_assoc; cbn [app]).

(** The loop invariant in terms of blocks.  The array is [P ++ A ++ B ++ C]:
    [P] is in its final place and ends at [first_element]; [A] runs from
    there to [tail_element], [B] from [tail_element] to [next], and [C] from
    [next] to the end of the array.  What remains is to bring [C ++ B] in
    front of [A]. *)
Lemma rotate_loop_blocks (fuel : nat) :
  forall (P A B C arr : list Z) (first_element next tail_element last_element : Z),
    arr = P ++ A ++ B ++ C ->
    first_element = Z.of_nat (length P) ->
    tail_element = Z.of_nat (length P + length A) ->
    next = Z.of_nat (length P + length A + length B) ->
    last_element = Z.of_nat (length arr) - 1 ->
    (A = [] -> B = []) -> C <> [] ->
    (length A + length B + length C < fuel)%nat ->
    rotate_loop fuel arr first_element next tail_element last_element =
      Ok (P ++ C ++ B ++ A).
Proof.
  induction fuel as [| fuel IH];
    intros P A B C arr f n m last Harr Hf Hm Hn Hlast HAB HC Hfuel; [lia |].
  cbn [rotate_loop].
  destruct A as [| a A'].
  - (* nothing left between [first_element] and [next] *)
    rewrite (HAB eq_refl) in *. cbn [length app] in *.
    subst. rewrite !Nat.add_0_r. rewrite Z.eqb_refl.
    rewrite app_nil_r. reflexivity.
  - destruct C as [| c C']; [congruence |].
    cbn [length] in *.
    replace (f =? n) with false by (symmetry; apply Z.eqb_neq; lia).
    rewrite (load_at arr P a (A' ++ B ++ c :: C') f) by (subst; auto).
    rewrite (load_at arr (P ++ a :: A' ++ B) c C' n);
      [| subst; app_norm; reflexivity
       | subst; len_norm; lia ].
    cbn [bind].
    rewrite (store_at arr P a (A' ++ B ++ c :: C') f c) by (subst; auto).
    cbn [bind].
    rewrite (store_at _ (P ++ c :: A' ++ B) c C' n a);
      [| app_norm; reflexivity
       | subst; len_norm; lia ].
    cbn [bind].
    assert (Hlen : length arr = (length P + S (length A') + length B + S (length C'))%nat).
    { subst arr. len_norm. lia. }
    destruct C' as [| c' C''].
    + (* [next] is at the last element: it goes back to [tail_element] *)
      cbn [length] in *.
      replace (n =? last) with true by (symmetry; apply Z.eqb_eq; lia).
      replace (if f + 1 =? m then m else m) with m by (destruct (f + 1 =? m); reflexivity).
      rewrite (IH (P ++ [c]) A' [] (B ++ [a])).
      * app_norm. reflexivity.
      * app_norm. reflexivity.
      * len_norm. lia.
      * len_norm. lia.
      * len_norm. lia.
      * len_norm. lia.
      * reflexivity.
      * destruct B; discriminate.
      * len_norm. lia.
    + cbn [length] in *.
      replace (n =? last) with false by (symmetry; apply Z.eqb_neq; lia).
      destruct A' as [| a' A''].
      * (* [first_element] reaches [tail_element]: the boundary moves to [next] *)
        cbn [length] in *.
        replace (f + 1 =? m) with true by (symmetry; apply Z.eqb_eq; lia).
        rewrite (IH (P ++ [c]) (B ++ [a]) [] (c' :: C'')).
        -- app_norm. reflexivity.
        -- app_norm. reflexivity.
        -- len_norm. lia.
        -- len_norm. lia.
        -- len_norm. lia.
        -- len_norm. lia.
        -- reflexivity.
        -- discriminate.
        -- len_norm. lia.
      * cbn [length] in *.
        replace (f + 1 =? m) with false by (symmetry; apply Z.eqb_neq; lia).
        rewrite (IH (P ++ [c]) (a' :: A'') (B ++ [a]) (c' :: C'')).
        -- app_norm. reflexivity.
        -- app_norm. reflexivity.
        -- len_norm. lia.
        -- len_norm. lia.
        -- len_norm. lia.
        -- len_norm. lia.
        -- discriminate.
        -- discriminate.
        -- len_norm. lia.
Qed.

(** The loop started by [cBufferContiguate] rotates the whole array left by
    [tail] cells. *)
Lemma rotate_loop_rotates (fuel : nat) (arr : list Z) (t : nat) :
  (t < length arr)%nat -> (length arr < fuel)%nat ->
  rotate_loop fuel arr 0 (Z.of_nat t) (Z.of_nat t) (Z.of_nat (length arr) - 1) =
    Ok (drop t arr ++ take t arr).
Proof.
  intros Ht Hfuel.
  rewrite (rotate_loop_blocks fuel [] (take t arr) [] (drop t arr)).
  - reflexivity.
  - cbn [app]. rewrite take_drop. reflexivity.
  - reflexivity.
  - cbn [length]. rewrite length_take. lia.
  - cbn [length]. rewrite length_take. lia.
  - reflexivity.
  - reflexivity.
  - intros H. apply (f_equal length) in H. rewrite length_drop in H.
    cbn [length] in H. lia.
  - rewrite length_take, length_drop. cbn [length]. lia.
Qed.

(** C3, as far as it holds.  With enough steps for the loop:
    - on an empty buffer both cursors are set to 0;
    - on a buffer with a wrap ([head < tail] and [head <> 0]) the array is
      rotated left by [tail] cells, the read cursor becomes 0, the write
      cursor the number of stored bytes, and the logical content, unchanged
      in value and order, is the run [[0, availableForRead)] of the array;
    - on any other buffer nothing changes: the content stays where it is and
      the read cursor keeps its value. *)
Theorem contiguate_spec (fuel : nat) (b : cBuffer_t) :
  wf b -> (Z.to_nat (size b) < fuel)%nat ->
  (head b = tail b ->
     cBufferContiguate fuel b =
       Ok (mk_cBuffer (data b) (size b) 0 0, C_BUFFER_SUCCESS))
  /\
  (head b < tail b -> head b <> 0 ->
     exists b',
       cBufferContiguate fuel b = Ok (b', C_BUFFER_SUCCESS)
       /\ data b' = drop (Z.to_nat (tail b)) (data b)
                    ++ take (Z.to_nat (tail b)) (data b)
       /\ size b' = size b
       /\ tail b' = 0
       /\ head b' = cBufferAvailableForRead b
       /\ content b' = content b
       /\ take (Z.to_nat (cBufferAvailableForRead b)) (data b') = content b)
  /\
  (head b <> tail b -> tail b < head b \/ head b = 0 ->
     cBufferContiguate fuel b = Ok (b, C_BUFFER_SUCCESS)).
Proof.
  intros Hwf Hfuel. apply wf_wf_end in Hwf.
  unfold cBufferContiguate, cBufferEmpty.
  rewrite available_for_read_eq by exact Hwf.
  nat_cursors b Hwf h t. split; [| split].
  - intros Heq. rewrite (proj2 (Z.eqb_eq _ _) Heq). reflexivity.
  - intros Hlt Hnz.
    rewrite (proj2 (Z.eqb_neq (Z.of_nat h) (Z.of_nat t))) by lia.
    cbn [Z.eqb negb]. ltb_true.
    rewrite (proj2 (Z.eqb_neq (Z.of_nat h) 0)) by lia. cbn [negb andb].
    rewrite to_size_t_small by lia.
    rewrite rotate_loop_rotates by lia. cbn [bind].
    rewrite to_uint32_small by lia.
    eexists. split; [reflexivity |].
    cbn [data size head tail set_data set_head set_tail].
    rewrite Nat2Z.id.
    assert (Hrun : take (Z.to_nat (Z.of_nat (length d) - Z.of_nat t + Z.of_nat h))
                     (drop t d ++ take t d)
                   = content (mk_cBuffer d (Z.of_nat (length d)) (Z.of_nat h) (Z.of_nat t))).
    { unfold content; cbn [data size head tail]. ltb_true.
      rewrite !Nat2Z.id.
      replace (Z.to_nat _) with (length d - t + h)%nat by lia.
      list_pointwise. }
    repeat split; try exact Hrun.
    rewrite <- Hrun. unfold content at 1.
    cbn [data size head tail set_data set_head set_tail]. ltb_false.
    rewrite Z.sub_0_r. reflexivity.
  - intros Hne Hcase.
    rewrite (proj2 (Z.eqb_neq (Z.of_nat h) (Z.of_nat t))) by lia.
    cbn [Z.eqb negb].
    destruct Hcase as [Hgt | Hz].
    + ltb_false. reflexivity.
    + rewrite Hz. cbn [Z.eqb negb]. rewrite andb_false_r. reflexivity.
Qed.

Lemma contiguate_spec_witness :
  exists b',
    cBufferContiguate 11 wrapped_example = Ok (b', C_BUFFER_SUCCESS)
    /\ data b' = [6; 7; 8; 9; 10; 11; 12; 3; 4; 5]
    /\ size b' = 10
    /\ tail b' = 0
    /\ head b' = 7
    /\ content b' = [6; 7; 8; 9; 10; 11; 12]
    /\ take 7 (data b') = [6; 7; 8; 9; 10; 11; 12].
Proof.
  refine (proj1 (proj2 (contiguate_spec 11 wrapped_example _ _)) _ _).
  - apply wfb_wf. reflexivity.
  - simpl. lia.
  - simpl. lia.
  - simpl. lia.
Defined.

Lemma contiguous_example_reachable :
  exists b1 b2,
    cBufferAppend (fst (cBufferInit (mk_cBuffer [] 0 0 0) (replicate 10 0) 10))
                  [1; 2; 3; 4; 5] 5 = Ok (b1, 5)
    /\ cBufferReadByte b1 = Ok (b2, 1)
    /\ cBufferReadByte b2 = Ok (contiguous_example, 2).
Proof. do 2 eexists. repeat split; vm_compute; reflexivity. Qed.

(** C3 as stated fails on a contiguous, non-empty buffer whose read cursor is
    not 0: the call succeeds and changes nothing, so the read cursor is
    still 2 and the first three cells of the array are not the content. *)
Lemma contiguate_leaves_offset :
  wf contiguous_example /\
  cBufferContiguate 11 contiguous_example =
    Ok (contiguous_example, C_BUFFER_SUCCESS) /\
  tail contiguous_example <> 0 /\
  content contiguous_example = [3; 4; 5] /\
  take (Z.to_nat (cBufferAvailableForRead contiguous_example))
       (data contiguous_example) = [1; 2; 3].
Proof.
  split; [split; vm_compute; auto; split; congruence |].
  repeat split; vm_compute; congruence.
Qed.

(** * Further properties of the operations *)

(** ** Appending in general *)

(** X1: on a bound instance with room for [s], [cBufferAppend] returns
    [length s], leaves the read cursor alone and puts [s] behind the logical
    content.  The write cursor stays inside the array or sits exactly at its
    end ([wf_end]). *)
Theorem append_spec (b : cBuffer_t) (s : list Z) :
  wf b ->
  Z.of_nat (length s) <= cBufferAvailableForWrite b ->
  exists b1,
    cBufferAppend b s (Z.of_nat (length s)) = Ok (b1, Z.of_nat (length s))
    /\ wf_end b1 /\ tail b1 = tail b /\ size b1 = size b
    /\ content b1 = content b ++ s
    /\ cBufferAvailableForRead b1
       = cBufferAvailableForRead b + Z.of_nat (length s).
Proof.
  intros Hwf Hroom.
  assert (Hlt : head b < size b) by (destruct Hwf; lia).
  apply wf_wf_end in Hwf.
  enough (exists b1,
    cBufferAppend b s (Z.of_nat (length s)) = Ok (b1, Z.of_nat (length s))
    /\ wf_end b1 /\ tail b1 = tail b /\ size b1 = size b
    /\ content b1 = content b ++ s) as (b1 & H1 & H2 & H3 & H4 & H5).
  { exists b1. repeat (split; [assumption |]).
    rewrite <- (content_length b1 H2), <- (content_length b Hwf), H5, length_app.
    lia. }
  unfold cBufferAppend. rewrite available_for_write_eq in * by exact Hwf.
  destruct (Z.eq_dec (Z.of_nat (length s)) 0) as [Hz | Hnz].
  { rewrite Hz. cbn [Z.eqb]. exists b. split; [reflexivity |].
    repeat (split; [auto |]).
    destruct s; [rewrite app_nil_r; reflexivity | discriminate]. }
  eqb_false. nat_cursors b Hwf h t.
  destruct (Z.of_nat h <? Z.of_nat t) eqn:E;
    [apply Z.ltb_lt in E | apply Z.ltb_ge in E].
  - (* the free room lies between the cursors *)
    rewrite (to_size_t_small (_ - 1)) by lia. ltb_false.
    rewrite !(to_size_t_small (_ + Z.of_nat (length s))) by lia. ltb_false.
    rewrite (memcpy_nat d _ _ _ _ h 0%nat (length s)) by lia.
    cbn [bind]. rewrite to_uint32_small, to_int32_small by lia.
    eexists. split; [reflexivity |]. split; [wf_end_close |].
    split; [reflexivity |]. split; [reflexivity |].
    unfold content; cbn [data size head tail set_data set_head].
    ltb_true. ltb_true.
    replace (Z.to_nat (_ + _)) with (h + length s)%nat by lia.
    rewrite !Nat2Z.id. list_pointwise.
  - rewrite (to_size_t_small (_ - 1)) by lia. ltb_false.
    rewrite !(to_size_t_small (_ + Z.of_nat (length s))) by lia.
    destruct (Z.ltb_spec (Z.of_nat (length d)) (Z.of_nat h + Z.of_nat (length s)))
      as [Hwrap | Hfit].
    + (* the bytes go around the end of the array *)
      rewrite !(to_size_t_small (Z.of_nat (length d) - Z.of_nat h)) by lia.
      rewrite !to_size_t_small by lia.
      rewrite (memcpy_nat d _ _ _ _ h 0%nat (length d - h)%nat) by lia.
      cbn [bind].
      rewrite (memcpy_nat _ _ _ _ _ 0%nat (length d - h)%nat
                 (length s - (length d - h))%nat);
        [| lia | lia | lia | list_simp; lia | lia].
      cbn [bind]. rewrite to_uint32_small, to_int32_small by lia.
      eexists. split; [reflexivity |]. split; [wf_end_close |].
      split; [reflexivity |]. split; [reflexivity |].
      unfold content; cbn [data size head tail set_data set_head].
      ltb_true. ltb_false.
      replace (Z.to_nat (_ - (_ - _))) with (length s - (length d - h))%nat by lia.
      replace (Z.to_nat (_ - _)) with (h - t)%nat by lia.
      rewrite !Nat2Z.id. list_pointwise.
    + rewrite (memcpy_nat d _ _ _ _ h 0%nat (length s)) by lia.
      cbn [bind]. rewrite to_uint32_small, to_int32_small by lia.
      eexists. split; [reflexivity |]. split; [wf_end_close |].
      split; [reflexivity |]. split; [reflexivity |].
      unfold content; cbn [data size head tail set_data set_head].
      ltb_false. ltb_false.
      replace (Z.to_nat (_ + _ - _)) with (h + length s - t)%nat by lia.
      replace (Z.to_nat (_ - _)) with (h - t)%nat by lia.
      rewrite !Nat2Z.id. list_pointwise.
Qed.

Lemma append_spec_witness :
  exists b1,
    cBufferAppend contiguous_example [6; 7; 8; 9; 10; 11] 6 = Ok (b1, 6)
    /\ wf_end b1 /\ tail b1 = 2 /\ size b1 = 10
    /\ content b1 = [3; 4; 5] ++ [6; 7; 8; 9; 10; 11]
    /\ cBufferAvailableForRead b1 = 3 + 6.
Proof.
  apply (append_spec contiguous_example [6; 7; 8; 9; 10; 11]).
  - apply wfb_wf. reflexivity.
  - vm_compute. discriminate.
Defined.

(** ** Prepending in general *)

(** X2: on a bound instance with room for [s], [cBufferPrepend] returns
    [length s], leaves the write cursor of a non-empty buffer alone and puts
    [s] in front of the logical content; the instance stays bound. *)
Theorem prepend_spec (b : cBuffer_t) (s : list Z) :
  wf b ->
  Z.of_nat (length s) <= cBufferAvailableForWrite b ->
  exists b1,
    cBufferPrepend b s (Z.of_nat (length s)) = Ok (b1, Z.of_nat (length s))
    /\ wf b1 /\ size b1 = size b
    /\ (head b <> tail b -> head b1 = head b)
    /\ content b1 = s ++ content b
    /\ cBufferAvailableForRead b1
       = cBufferAvailableForRead b + Z.of_nat (length s).
Proof.
  intros Hwf Hroom.
  destruct (prepend_ok b s Hwf Hroom) as (b1 & Hrun & Hwf1 & Hc).
  exists b1. split; [exact Hrun |]. split; [exact Hwf1 |].
  assert (Hsh : size b1 = size b /\ (head b <> tail b -> head b1 = head b)).
  { revert Hrun. unfold cBufferPrepend.
    destruct (_ =? 0); [intros [= <- _]; auto |].
    destruct (_ <? _); [intros [= <- _]; auto |].
    destruct (head b =? tail b) eqn:E.
    - apply Z.eqb_eq in E.
      destruct (memcpy _ _ _ _ _); cbn [bind]; try discriminate.
      intros [= <- _]. split; [reflexivity | congruence].
    - destruct (tail b <? _).
      + destruct (memcpy _ _ _ _ _); cbn [bind]; try discriminate.
        destruct (memcpy _ _ _ _ _); cbn [bind]; try discriminate.
        intros [= <- _]. split; reflexivity.
      + destruct (memcpy _ _ _ _ _); cbn [bind]; try discriminate.
        intros [= <- _]. split; reflexivity. }
  destruct Hsh as [Hsz Hhd]. split; [exact Hsz |]. split; [exact Hhd |].
  split; [exact Hc |].
  rewrite <- (content_length b1 (wf_wf_end b1 Hwf1)).
  rewrite <- (content_length b (wf_wf_end b Hwf)), Hc, length_app. lia.
Qed.

Lemma prepend_spec_witness :
  exists b1,
    cBufferPrepend contiguous_example [8; 9; 10; 11] 4 = Ok (b1, 4)
    /\ wf b1 /\ size b1 = 10
    /\ (5 <> 2 -> head b1 = 5)
    /\ content b1 = [8; 9; 10; 11] ++ [3; 4; 5]
    /\ cBufferAvailableForRead b1 = 3 + 4.
Proof.
  apply (prepend_spec contiguous_example [8; 9; 10; 11]).
  - apply wfb_wf. reflexivity.
  - vm_compute. discriminate.
Defined.

(** ** Single bytes *)

Lemma lookup_singleton_decide (x : Z) (i : nat) :
  [x] !! i = if decide (i = 0)%nat then Some x else None.
Proof. destruct i; reflexivity. Qed.

Lemma store_ok (a : list Z) (i : nat) (v : Z) :
  (i < length a)%nat ->
  store a (Z.of_nat i) v = Ok (take i a ++ [v] ++ drop (S i) a).
Proof.
  intros Hi. unfold store.
  replace (0 <=? Z.of_nat i) with true by (symmetry; apply Z.leb_le; lia).
  ltb_true. cbn [andb]. rewrite Nat2Z.id. f_equal.
  apply insert_take_drop. exact Hi.
Qed.

Ltac list_simp1 :=
  repeat first
    [ rewrite lookup_app_decide | rewrite lookup_take | rewrite lookup_drop
    | rewrite lookup_singleton_decide
    | rewrite length_app | rewrite length_take | rewrite length_drop
    | progress cbn [length] ].

Ltac lookup_close1 :=
  first
    [ reflexivity
    | lia
    | f_equal; lia
    | apply lookup_ge_None_2; list_simp1; lia
    | symmetry; apply lookup_ge_None_2; list_simp1; lia
    | transitivity (@None Z);
      [ apply lookup_ge_None_2 | symmetry; apply lookup_ge_None_2 ];
      list_simp1; lia ].

(** Cell-by-cell equality for arrays that also contain single cells. *)
Ltac list_pointwise1 :=
  list_pre; apply list_eq; intros ?;
  list_simp1; repeat (case_decide; [try lia; list_simp1 ..]);
  lookup_close1.

Ltac wf_close1 :=
  split; cbn [data size head tail set_data set_head set_tail];
  unfold INT32_MAX; list_simp1; lia.

(** The byte goes behind the logical content and the instance stays
    bound. *)
Lemma append_byte_content (b : cBuffer_t) (x : Z) :
  wf b -> 1 <= cBufferAvailableForWrite b ->
  exists b1,
    cBufferAppendByte b x = Ok (b1, 1)
    /\ wf b1 /\ size b1 = size b
    /\ content b1 = content b ++ [x].
Proof.
  intros Hwf Hroom.
  assert (Hlt : head b < size b) by (destruct Hwf; lia).
  apply wf_wf_end in Hwf.
  unfold cBufferAppendByte. rewrite available_for_write_eq in * by exact Hwf.
  nat_cursors b Hwf h t.
  destruct (Z.of_nat h <? Z.of_nat t) eqn:E;
    [apply Z.ltb_lt in E | apply Z.ltb_ge in E].
  - rewrite to_size_t_small by lia. ltb_false.
    rewrite (proj2 (Z.eqb_neq (Z.of_nat h) (Z.of_nat t))) by lia.
    cbn [data size head tail set_data set_head set_tail].
    rewrite store_ok by lia. cbn [bind].
    unfold MODULO_INC. cbn [data size head tail set_data set_head set_tail].
    rewrite (to_uint32_small (_ + 1)) by lia.
    rewrite Z.mod_small by lia. rewrite to_uint32_small by lia.
    eexists. split; [reflexivity |]. split; [wf_close1 |].
    split; [reflexivity |].
    unfold content; cbn [data size head tail set_data set_head set_tail].
    ltb_true. ltb_true.
    replace (Z.to_nat (_ + 1)) with (S h) by lia.
    rewrite !Nat2Z.id. list_pointwise1.
  - rewrite to_size_t_small by lia. ltb_false.
    destruct (Z.eqb_spec (Z.of_nat h) (Z.of_nat t)) as [Heq | Hne].
    + (* empty: both cursors go back to 0 first *)
      cbn [data size head tail set_data set_head set_tail].
      rewrite (store_ok d 0) by lia. cbn [bind].
      unfold MODULO_INC. cbn [data size head tail set_data set_head set_tail].
      rewrite (to_uint32_small (0 + 1)) by lia.
      rewrite Z.mod_small by lia. rewrite to_uint32_small by lia.
      eexists. split; [reflexivity |]. split; [wf_close1 |].
      split; [reflexivity |].
      unfold content; cbn [data size head tail set_data set_head set_tail].
      ltb_false. ltb_false.
      replace (Z.to_nat (Z.of_nat h - Z.of_nat t)) with 0%nat by lia.
      change (Z.to_nat (0 + 1 - 0)) with 1%nat.
      change (Z.to_nat 0) with 0%nat. list_pointwise1.
    + cbn [data size head tail set_data set_head set_tail].
      rewrite store_ok by lia. cbn [bind].
      unfold MODULO_INC. cbn [data size head tail set_data set_head set_tail].
      rewrite (to_uint32_small (_ + 1)) by lia.
      destruct (Z.eq_dec (Z.of_nat h + 1) (Z.of_nat (length d))) as [Hend | Hmid].
      * rewrite Hend, Z.mod_same by lia. rewrite to_uint32_small by lia.
        eexists. split; [reflexivity |]. split; [wf_close1 |].
        split; [reflexivity |].
        unfold content; cbn [data size head tail set_data set_head set_tail].
        ltb_true. ltb_false.
        replace (Z.to_nat (_ - _)) with (h - t)%nat by lia.
        change (Z.to_nat 0) with 0%nat.
        rewrite !Nat2Z.id. list_pointwise1.
      * rewrite Z.mod_small by lia. rewrite to_uint32_small by lia.
        eexists. split; [reflexivity |]. split; [wf_close1 |].
        split; [reflexivity |].
        unfold content; cbn [data size head tail set_data set_head set_tail].
        ltb_false. ltb_false.
        replace (Z.to_nat (_ + 1 - _)) with (S h - t)%nat by lia.
        replace (Z.to_nat (_ - _)) with (h - t)%nat by lia.
        rewrite !Nat2Z.id. list_pointwise1.
Qed.

(** The instance [cBufferAppendByte] leaves behind. *)
Lemma append_byte_run (b : cBuffer_t) (x : Z) :
  wf b -> 1 <= cBufferAvailableForWrite b ->
  cBufferAppendByte b x =
    Ok (mk_cBuffer
          (<[Z.to_nat (if head b =? tail b then 0 else head b) := x]> (data b))
          (size b)
          (((if head b =? tail b then 0 else head b) + 1) mod size b)
          (if head b =? tail b then 0 else tail b),
        1).
Proof.
  intros Hwf Hroom.
  assert (Hwe := wf_wf_end b Hwf).
  unfold cBufferAppendByte.
  rewrite available_for_write_eq in * by exact Hwe.
  destruct Hwf as [Hs Hd Hh Ht]. unfold INT32_MAX in *.
  assert (Hav : 1 <= (if head b <? tail b then tail b - head b - 1
                      else size b - head b + tail b - 1) <= size b)
    by (destruct (head b <? tail b) eqn:E;
        [apply Z.ltb_lt in E | apply Z.ltb_ge in E]; lia).
  rewrite to_size_t_small by lia. ltb_false.
  destruct (head b =? tail b);
    unfold store, MODULO_INC, set_data, set_head, set_tail;
    cbn [data size head tail].
  - replace (0 <? Z.of_nat (length (data b))) with true
      by (symmetry; apply Z.ltb_lt; lia).
    cbn [Z.leb Z.compare andb bind].
    pose proof (Z.mod_pos_bound (0 + 1) (size b)).
    rewrite (to_uint32_small (0 + 1)) by lia.
    rewrite to_uint32_small by lia. reflexivity.
  - replace (0 <=? head b) with true by (symmetry; apply Z.leb_le; lia).
    replace (head b <? Z.of_nat (length (data b))) with true
      by (symmetry; apply Z.ltb_lt; lia).
    cbn [andb bind].
    pose proof (Z.mod_pos_bound (head b + 1) (size b)).
    rewrite (to_uint32_small (head b + 1)) by lia.
    rewrite to_uint32_small by lia. reflexivity.
Qed.

(** X3: with room for one byte, [cBufferAppendByte] returns 1.  On an empty
    buffer both cursors are first reset to 0; the byte is stored in the cell
    under the write cursor, the write cursor advances by one and wraps to 0
    after the last cell, and the read cursor is otherwise left alone.  The
    byte ends up behind the logical content and the instance stays bound. *)
Theorem append_byte_spec (b : cBuffer_t) (x : Z) :
  wf b -> 1 <= cBufferAvailableForWrite b ->
  exists b1,
    cBufferAppendByte b x = Ok (b1, 1)
    /\ data b1
       = <[Z.to_nat (if head b =? tail b then 0 else head b) := x]> (data b)
    /\ size b1 = size b
    /\ head b1 = ((if head b =? tail b then 0 else head b) + 1) mod size b
    /\ tail b1 = (if head b =? tail b then 0 else tail b)
    /\ wf b1
    /\ content b1 = content b ++ [x].
Proof.
  intros Hwf Hroom.
  destruct (append_byte_content b x Hwf Hroom) as (b1 & Hrun & Hwf1 & _ & Hc).
  pose proof (append_byte_run b x Hwf Hroom) as Hrun'.
  rewrite Hrun' in Hrun. injection Hrun as <-.
  eexists. split; [exact Hrun' |]. cbn [data size head tail].
  repeat (split; [reflexivity |]). split; assumption.
Qed.

Lemma append_byte_spec_witness :
  exists b1,
    cBufferAppendByte (mk_cBuffer [0; 0; 0; 7; 8] 5 0 3) 9 = Ok (b1, 1)
    /\ data b1 = [9; 0; 0; 7; 8]
    /\ size b1 = 5
    /\ head b1 = 1
    /\ tail b1 = 3
    /\ wf b1
    /\ content b1 = [7; 8] ++ [9].
Proof.
  apply (append_byte_spec (mk_cBuffer [0; 0; 0; 7; 8] 5 0 3) 9).
  - apply wfb_wf. reflexivity.
  - vm_compute. discriminate.
Defined.

Lemma store_nat (a : list Z) (iz : Z) (v : Z) (i : nat) :
  iz = Z.of_nat i -> (i < length a)%nat ->
  store a iz v = Ok (take i a ++ [v] ++ drop (S i) a).
Proof. intros -> Hi. apply store_ok. exact Hi. Qed.

(** The byte goes in front of the logical content and the instance stays
    bound. *)
Lemma prepend_byte_content (b : cBuffer_t) (x : Z) :
  wf b -> 1 <= cBufferAvailableForWrite b ->
  exists b1,
    cBufferPrependByte b x = Ok (b1, 1)
    /\ wf b1 /\ size b1 = size b
    /\ content b1 = x :: content b.
Proof.
  intros Hwf Hroom.
  assert (Hlt : head b < size b) by (destruct Hwf; lia).
  apply wf_wf_end in Hwf.
  unfold cBufferPrependByte. rewrite available_for_write_eq in * by exact Hwf.
  nat_cursors b Hwf h t.
  destruct (Z.of_nat h <? Z.of_nat t) eqn:E;
    [apply Z.ltb_lt in E | apply Z.ltb_ge in E].
  - rewrite to_size_t_small by lia. ltb_false.
    rewrite (proj2 (Z.eqb_neq (Z.of_nat h) (Z.of_nat t))) by lia.
    rewrite (proj2 (Z.eqb_neq (Z.of_nat t) 0)) by lia.
    cbn [data size head tail set_data set_head set_tail].
    rewrite to_uint32_small by lia.
    rewrite (store_nat d _ _ (t - 1)%nat) by lia. cbn [bind].
    eexists. split; [reflexivity |]. split; [wf_close1 |].
    split; [reflexivity |].
    unfold content; cbn [data size head tail set_data set_head set_tail].
    ltb_true. ltb_true.
    replace (Z.to_nat (_ - 1)) with (t - 1)%nat by lia.
    rewrite !Nat2Z.id.
    change (x :: ?l) with ([x] ++ l). list_pointwise1.
  - rewrite to_size_t_small by lia. ltb_false.
    destruct (Z.eqb_spec (Z.of_nat h) (Z.of_nat t)) as [Heq | Hne].
    + cbn [data size head tail set_data set_head set_tail].
      rewrite to_size_t_small, to_uint32_small by lia.
      rewrite (store_nat d _ _ (length d - 1)%nat) by lia. cbn [bind].
      eexists. split; [reflexivity |]. split; [wf_close1 |].
      split; [reflexivity |].
      unfold content; cbn [data size head tail set_data set_head set_tail].
      ltb_true. ltb_false.
      replace (Z.to_nat (Z.of_nat h - Z.of_nat t)) with 0%nat by lia.
      replace (Z.to_nat (_ - 1)) with (length d - 1)%nat by lia.
      change (Z.to_nat 0) with 0%nat.
      change (x :: ?l) with ([x] ++ l). list_pointwise1.
    + destruct (Z.eqb_spec (Z.of_nat t) 0) as [Hz | Hnz].
      * cbn [data size head tail set_data set_head set_tail].
        rewrite to_size_t_small, to_uint32_small by lia.
        rewrite (store_nat d _ _ (length d - 1)%nat) by lia. cbn [bind].
        eexists. split; [reflexivity |]. split; [wf_close1 |].
        split; [reflexivity |].
        unfold content; cbn [data size head tail set_data set_head set_tail].
        ltb_true. ltb_false.
        replace (Z.to_nat (Z.of_nat h - Z.of_nat t)) with h by lia.
        replace (Z.to_nat (_ - 1)) with (length d - 1)%nat by lia.
        replace t with 0%nat by lia.
        rewrite !Nat2Z.id.
        change (x :: ?l) with ([x] ++ l). list_pointwise1.
      * cbn [data size head tail set_data set_head set_tail].
        rewrite to_uint32_small by lia.
        rewrite (store_nat d _ _ (t - 1)%nat) by lia. cbn [bind].
        eexists. split; [reflexivity |]. split; [wf_close1 |].
        split; [reflexivity |].
        unfold content; cbn [data size head tail set_data set_head set_tail].
        ltb_false. ltb_false.
        replace (Z.to_nat (_ - (_ - 1))) with (S (h - t)) by lia.
        replace (Z.to_nat (Z.of_nat h - Z.of_nat t)) with (h - t)%nat by lia.
        replace (Z.to_nat (_ - 1)) with (t - 1)%nat by lia.
        rewrite !Nat2Z.id.
        change (x :: ?l) with ([x] ++ l). list_pointwise1.
Qed.

(** The instance [cBufferPrependByte] leaves behind. *)
Lemma prepend_byte_run (b : cBuffer_t) (x : Z) :
  wf b -> 1 <= cBufferAvailableForWrite b ->
  cBufferPrependByte b x =
    Ok (mk_cBuffer
          (<[Z.to_nat (if (head b =? tail b) || (tail b =? 0)
                       then size b - 1 else tail b - 1) := x]> (data b))
          (size b)
          (if head b =? tail b then 0 else head b)
          (if (head b =? tail b) || (tail b =? 0)
           then size b - 1 else tail b - 1),
        1).
Proof.
  intros Hwf Hroom.
  assert (Hwe := wf_wf_end b Hwf).
  unfold cBufferPrependByte.
  rewrite available_for_write_eq in * by exact Hwe.
  destruct Hwf as [Hs Hd Hh Ht]. unfold INT32_MAX in *.
  assert (Hav : 1 <= (if head b <? tail b then tail b - head b - 1
                      else size b - head b + tail b - 1) <= size b)
    by (destruct (head b <? tail b) eqn:E;
        [apply Z.ltb_lt in E | apply Z.ltb_ge in E]; lia).
  assert (Hsz : 2 <= size b)
    by (destruct (head b <? tail b) eqn:E;
        [apply Z.ltb_lt in E | apply Z.ltb_ge in E]; lia).
  rewrite to_size_t_small by lia. ltb_false.
  destruct (head b =? tail b); [| destruct (Z.eqb_spec (tail b) 0)];
    cbn [orb]; unfold store, set_data, set_head, set_tail;
    cbn [data size head tail].
  - rewrite to_size_t_small, to_uint32_small by lia.
    replace (0 <=? size b - 1) with true by (symmetry; apply Z.leb_le; lia).
    replace (size b - 1 <? Z.of_nat (length (data b))) with true
      by (symmetry; apply Z.ltb_lt; lia).
    reflexivity.
  - rewrite to_size_t_small, to_uint32_small by lia.
    replace (0 <=? size b - 1) with true by (symmetry; apply Z.leb_le; lia).
    replace (size b - 1 <? Z.of_nat (length (data b))) with true
      by (symmetry; apply Z.ltb_lt; lia).
    reflexivity.
  - rewrite to_uint32_small by lia.
    replace (0 <=? tail b - 1) with true by (symmetry; apply Z.leb_le; lia).
    replace (tail b - 1 <? Z.of_nat (length (data b))) with true
      by (symmetry; apply Z.ltb_lt; lia).
    reflexivity.
Qed.

(** X4: with room for one byte, [cBufferPrependByte] returns 1.  On an
    empty buffer the write cursor is reset to 0 and the byte goes to the last
    cell, which becomes the read cursor; otherwise the write cursor is left
    alone and the read cursor steps back by one, wrapping from 0 to
    [size - 1], and the byte is stored under it.  The byte ends up in front
    of the logical content and the instance stays bound. *)
Theorem prepend_byte_spec (b : cBuffer_t) (x : Z) :
  wf b -> 1 <= cBufferAvailableForWrite b ->
  exists b1,
    cBufferPrependByte b x = Ok (b1, 1)
    /\ tail b1 = (if (head b =? tail b) || (tail b =? 0)
                  then size b - 1 else tail b - 1)
    /\ head b1 = (if head b =? tail b then 0 else head b)
    /\ data b1 = <[Z.to_nat (tail b1) := x]> (data b)
    /\ size b1 = size b
    /\ wf b1
    /\ content b1 = x :: content b.
Proof.
  intros Hwf Hroom.
  destruct (prepend_byte_content b x Hwf Hroom) as (b1 & Hrun & Hwf1 & _ & Hc).
  pose proof (prepend_byte_run b x Hwf Hroom) as Hrun'.
  rewrite Hrun' in Hrun. injection Hrun as <-.
  eexists. split; [exact Hrun' |]. cbn [data size head tail].
  repeat (split; [reflexivity |]). split; assumption.
Qed.

Lemma prepend_byte_spec_witness :
  exists b1,
    cBufferPrependByte (mk_cBuffer [7; 8; 0; 0; 0] 5 2 0) 6 = Ok (b1, 1)
    /\ tail b1 = 4
    /\ head b1 = 2
    /\ data b1 = <[Z.to_nat (tail b1) := 6]> [7; 8; 0; 0; 0]
    /\ size b1 = 5
    /\ wf b1
    /\ content b1 = 6 :: [7; 8].
Proof.
  apply (prepend_byte_spec (mk_cBuffer [7; 8; 0; 0; 0] 5 2 0) 6).
  - apply wfb_wf. reflexivity.
  - vm_compute. discriminate.
Defined.

(** ** Consuming from the front *)

(** Moving the read cursor of a bound instance forward by [n] stored bytes
    drops the first [n] bytes of the logical content. *)
Lemma advance_tail_content (b : cBuffer_t) (n : Z) :
  wf b -> 0 <= n <= cBufferAvailableForRead b ->
  wf (mk_cBuffer (data b) (size b) (head b) ((tail b + n) mod size b))
  /\ content (mk_cBuffer (data b) (size b) (head b) ((tail b + n) mod size b))
     = drop (Z.to_nat n) (content b).
Proof.
  intros Hwf Hn.
  assert (Hlt : head b < size b) by (destruct Hwf; lia).
  apply wf_wf_end in Hwf.
  rewrite available_for_read_eq in * by exact Hwf.
  nat_cursors b Hwf h t.
  destruct (Z.of_nat h <? Z.of_nat t) eqn:E;
    [apply Z.ltb_lt in E | apply Z.ltb_ge in E].
  - destruct (Z.lt_ge_cases (Z.of_nat t + n) (Z.of_nat (length d))) as [Hin | Hout].
    + rewrite Z.mod_small by lia. split; [split; cbn [data size head tail]; unfold INT32_MAX; lia |].
      unfold content; cbn [data size head tail]. ltb_true. ltb_true.
      replace (Z.to_nat (_ + n)) with (t + Z.to_nat n)%nat by lia.
      rewrite !Nat2Z.id. list_pointwise.
    + assert (Hm : (Z.of_nat t + n) mod Z.of_nat (length d)
                   = Z.of_nat t + n - Z.of_nat (length d))
        by (symmetry; apply (Z.mod_unique_pos _ _ 1); lia).
      rewrite Hm. split; [split; cbn [data size head tail]; unfold INT32_MAX; lia |].
      unfold content; cbn [data size head tail]. ltb_false. ltb_true.
      replace (Z.to_nat (_ - (_ + n - _))) with (h - (t + Z.to_nat n - length d))%nat by lia.
      replace (Z.to_nat (_ + n - _)) with (t + Z.to_nat n - length d)%nat by lia.
      rewrite !Nat2Z.id. list_pointwise.
  - rewrite Z.mod_small by lia. split; [split; cbn [data size head tail]; unfold INT32_MAX; lia |].
    unfold content; cbn [data size head tail]. ltb_false. ltb_false.
    replace (Z.to_nat (_ - (_ + n))) with (h - t - Z.to_nat n)%nat by lia.
    replace (Z.to_nat (_ + n)) with (t + Z.to_nat n)%nat by lia.
    replace (Z.to_nat (_ - _)) with (h - t)%nat by lia.
    rewrite !Nat2Z.id. list_pointwise.
Qed.

(** X5: on a non-empty bound instance [cBufferReadByte] returns the first
    byte of the logical content and leaves the rest as the content. *)
Theorem read_byte_pops (b : cBuffer_t) :
  wf b -> head b <> tail b ->
  exists v b',
    cBufferReadByte b = Ok (b', v)
    /\ wf b'
    /\ content b = v :: content b'
    /\ cBufferAvailableForRead b' = cBufferAvailableForRead b - 1.
Proof.
  intros Hwf Hne.
  assert (Hwe := wf_wf_end b Hwf).
  assert (Hav : 0 <= 1 <= cBufferAvailableForRead b).
  { rewrite available_for_read_eq by exact Hwe. destruct Hwf.
    destruct (head b <? tail b) eqn:E;
      [apply Z.ltb_lt in E | apply Z.ltb_ge in E]; lia. }
  destruct (advance_tail_content b 1 Hwf Hav) as [Hwf' Hc].
  pose proof (content_length b Hwe) as Hlen.
  destruct (content b) as [| v rest] eqn:Hcb; [cbn [length] in Hlen; lia |].
  assert (Hv : data b !! Z.to_nat (tail b) = Some v).
  { assert (Hh : content b !! 0%nat = Some v) by (rewrite Hcb; reflexivity).
    revert Hh. unfold content.
    destruct (head b <? tail b) eqn:E;
      [apply Z.ltb_lt in E | apply Z.ltb_ge in E].
    - rewrite lookup_app_l.
      + rewrite lookup_drop, Nat.add_0_r. auto.
      + destruct Hwf. rewrite length_drop. lia.
    - rewrite lookup_take_lt.
      + rewrite lookup_drop, Nat.add_0_r. auto.
      + destruct Hwf. lia. }
  exists v, (mk_cBuffer (data b) (size b) (head b) ((tail b + 1) mod size b)).
  split.
  - unfold cBufferReadByte, cBufferEmpty.
    rewrite (proj2 (Z.eqb_neq (head b) (tail b)) Hne). cbn [Z.eqb negb].
    unfold load. rewrite Hv. destruct Hwf as [Hs Hd Hh Ht].
    unfold INT32_MAX in *.
    replace (0 <=? tail b) with true by (symmetry; apply Z.leb_le; lia).
    ltb_true. cbn [andb bind]. unfold MODULO_INC, set_tail.
    rewrite (to_uint32_small (tail b + 1)) by lia.
    pose proof (Z.mod_pos_bound (tail b + 1) (size b)).
    rewrite to_uint32_small by lia. reflexivity.
  - split; [exact Hwf' |]. split.
    + rewrite Hc. reflexivity.
    + rewrite <- (content_length _ (wf_wf_end _ Hwf')), Hc, <- Hlen.
      rewrite length_drop. cbn [length]. lia.
Qed.

Lemma read_byte_pops_witness :
  exists v b',
    cBufferReadByte wrapped_example = Ok (b', v)
    /\ wf b'
    /\ content wrapped_example = v :: content b'
    /\ cBufferAvailableForRead b' = 7 - 1.
Proof.
  apply (read_byte_pops wrapped_example).
  - apply wfb_wf. reflexivity.
  - simpl. lia.
Defined.

(** X6: [cBufferReadBytes] with [n] at most the stored count returns [n],
    delivers the first [n] bytes of the logical content at the front of
    [out] and leaves the remaining bytes, in order, as the content.  The
    destination needs room for [bytes_copied b n] bytes. *)
Theorem read_bytes_consumes (b : cBuffer_t) (out : list Z) (n : Z) :
  wf b ->
  0 <= n <= cBufferAvailableForRead b ->
  bytes_copied b n <= Z.of_nat (length out) ->
  exists b' out',
    cBufferReadBytes b out n = Ok (b', out', n)
    /\ wf b'
    /\ take (Z.to_nat n) out' = take (Z.to_nat n) (content b)
    /\ length out' = length out
    /\ content b' = drop (Z.to_nat n) (content b)
    /\ cBufferAvailableForRead b' = cBufferAvailableForRead b - n.
Proof.
  intros Hwf Hn Hout.
  assert (Hwe := wf_wf_end b Hwf).
  destruct (advance_tail_content b n Hwf Hn) as [Hwf' Hc].
  pose proof (read_bytes_ok b out n Hwe Hn Hout) as Hrun.
  do 2 eexists. split; [exact Hrun |]. split; [exact Hwf' |].
  destruct (read_bytes_front b out n _ _ _ Hwe Hn Hrun) as (_ & Hfront & _).
  split; [exact Hfront |].
  pose proof (content_length b Hwe) as Hlen.
  assert (Hcp : 0 <= bytes_copied b n <= cBufferAvailableForRead b).
  { unfold bytes_copied. rewrite available_for_read_eq in * by exact Hwe.
    destruct Hwf.
    destruct (head b <? tail b) eqn:E;
      [apply Z.ltb_lt in E | apply Z.ltb_ge in E]; cbn [andb]; [| lia].
    destruct (Z.leb_spec n (size b - tail b)); lia. }
  split; [rewrite length_app, length_take, length_drop; lia |].
  split; [exact Hc |].
  rewrite <- (content_length _ (wf_wf_end _ Hwf')), Hc, length_drop. lia.
Qed.

Lemma read_bytes_consumes_witness :
  exists b' out',
    cBufferReadBytes wrapped_example [0; 0; 0; 0; 0; 0] 6 = Ok (b', out', 6)
    /\ wf b'
    /\ take 6 out' = take 6 (content wrapped_example)
    /\ length out' = 6%nat
    /\ content b' = drop 6 (content wrapped_example)
    /\ cBufferAvailableForRead b' = 7 - 6.
Proof.
  apply (read_bytes_consumes wrapped_example [0; 0; 0; 0; 0; 0] 6).
  - apply wfb_wf. reflexivity.
  - vm_compute. split; discriminate.
  - vm_compute. discriminate.
Defined.

(** ** Binding and clearing *)

(** X7: [cBufferInit] refuses a size of 0 and leaves the instance alone;
    bound to an array of [buffer_size] cells it yields an empty buffer with
    both cursors at 0 and [buffer_size - 1] bytes of room. *)
Theorem init_spec (inst : cBuffer_t) (buffer : list Z) (buffer_size : Z) :
  Z.of_nat (length buffer) = buffer_size ->
  buffer_size <= INT32_MAX ->
  (buffer_size = 0 ->
     cBufferInit inst buffer buffer_size = (inst, C_BUFFER_NULL_ERROR))
  /\
  (buffer_size <> 0 ->
     cBufferInit inst buffer buffer_size =
       (mk_cBuffer buffer buffer_size 0 0, C_BUFFER_SUCCESS)
     /\ wf (mk_cBuffer buffer buffer_size 0 0)
     /\ content (mk_cBuffer buffer buffer_size 0 0) = []
     /\ cBufferEmpty (mk_cBuffer buffer buffer_size 0 0) = 1
     /\ cBufferAvailableForRead (mk_cBuffer buffer buffer_size 0 0) = 0
     /\ cBufferAvailableForWrite (mk_cBuffer buffer buffer_size 0 0)
        = buffer_size - 1).
Proof.
  intros Hlen Hmax. unfold cBufferInit. split.
  - intros ->. reflexivity.
  - intros Hnz. rewrite (proj2 (Z.eqb_neq _ _) Hnz).
    assert (Hwf : wf (mk_cBuffer buffer buffer_size 0 0))
      by (split; cbn [data size head tail]; lia).
    split; [reflexivity |]. split; [exact Hwf |].
    split; [reflexivity |]. split; [reflexivity |].
    rewrite available_for_read_eq, available_for_write_eq
      by (apply wf_wf_end; exact Hwf).
    cbn [data size head tail Z.ltb Z.compare]. lia.
Qed.

Lemma init_spec_witness :
  cBufferInit small_buffer (replicate 10 0) 10 =
    (mk_cBuffer (replicate 10 0) 10 0 0, C_BUFFER_SUCCESS)
  /\ wf (mk_cBuffer (replicate 10 0) 10 0 0)
  /\ content (mk_cBuffer (replicate 10 0) 10 0 0) = []
  /\ cBufferEmpty (mk_cBuffer (replicate 10 0) 10 0 0) = 1
  /\ cBufferAvailableForRead (mk_cBuffer (replicate 10 0) 10 0 0) = 0
  /\ cBufferAvailableForWrite (mk_cBuffer (replicate 10 0) 10 0 0) = 10 - 1.
Proof.
  refine (proj2 (init_spec small_buffer (replicate 10 0) 10 _ _) _).
  - reflexivity.
  - unfold INT32_MAX. lia.
  - lia.
Defined.

(** X8: [cBufferClear] succeeds on every bound instance and leaves a bound,
    empty buffer over the same array with all [size - 1] bytes free. *)
Theorem clear_spec (b : cBuffer_t) :
  wf b ->
  exists b',
    cBufferClear b = (b', C_BUFFER_SUCCESS)
    /\ wf b' /\ data b' = data b /\ size b' = size b
    /\ content b' = []
    /\ cBufferAvailableForRead b' = 0
    /\ cBufferAvailableForWrite b' = size b - 1.
Proof.
  intros Hwf. eexists. split; [reflexivity |].
  assert (Hwf' : wf (set_tail (set_head b 0) 0))
    by (destruct Hwf; split; cbn [data size head tail set_head set_tail]; lia).
  split; [exact Hwf' |]. split; [reflexivity |]. split; [reflexivity |].
  split; [reflexivity |].
  rewrite available_for_read_eq, available_for_write_eq
    by (apply wf_wf_end; exact Hwf').
  cbn [data size head tail set_head set_tail Z.ltb Z.compare]. lia.
Qed.

Lemma clear_spec_witness :
  exists b',
    cBufferClear wrapped_example = (b', C_BUFFER_SUCCESS)
    /\ wf b' /\ data b' = data wrapped_example /\ size b' = 10
    /\ content b' = []
    /\ cBufferAvailableForRead b' = 0
    /\ cBufferAvailableForWrite b' = 10 - 1.
Proof.
  apply (clear_spec wrapped_example). apply wfb_wf. reflexivity.
Defined.

(** ** The boolean queries *)

(** X9: on a bound instance [cBufferEmpty] and [cBufferFull] return 0 or 1;
    [cBufferEmpty] returns 1 exactly when nothing is stored, [cBufferFull]
    exactly when no room is left. *)
Theorem empty_full_spec (b : cBuffer_t) :
  wf b ->
  (cBufferEmpty b = 1 \/ cBufferEmpty b = 0)
  /\ (cBufferFull b = 1 \/ cBufferFull b = 0)
  /\ (cBufferEmpty b = 1 <-> cBufferAvailableForRead b = 0)
  /\ (cBufferEmpty b = 1 <-> content b = [])
  /\ (cBufferFull b = 1 <-> cBufferAvailableForWrite b = 0).
Proof.
  intros Hwf.
  assert (Hwe := wf_wf_end b Hwf).
  pose proof (content_length b Hwe) as Hlen.
  rewrite available_for_read_eq in * by exact Hwe.
  rewrite available_for_write_eq by exact Hwe.
  unfold cBufferEmpty, cBufferFull, MODULO_INC.
  destruct Hwf as [Hs Hd Hh Ht]. unfold INT32_MAX in *.
  rewrite to_uint32_small by lia.
  assert (Hmod : (head b + 1) mod size b
                 = if head b + 1 =? size b then 0 else head b + 1).
  { destruct (Z.eqb_spec (head b + 1) (size b)) as [-> | Hne].
    - apply Z.mod_same. lia.
    - apply Z.mod_small. lia. }
  rewrite Hmod.
  split; [destruct (head b =? tail b); auto |].
  split; [destruct (_ =? tail b); auto |].
  split; [| split].
  - destruct (Z.eqb_spec (head b) (tail b));
      destruct (head b <? tail b) eqn:E;
      [apply Z.ltb_lt in E | apply Z.ltb_ge in E
      | apply Z.ltb_lt in E | apply Z.ltb_ge in E]; split; intros; lia.
  - destruct (Z.eqb_spec (head b) (tail b)) as [Heq | Hne].
    + split; [intros _ | reflexivity].
      destruct (content b); [reflexivity |].
      destruct (head b <? tail b) eqn:E;
        [apply Z.ltb_lt in E | apply Z.ltb_ge in E]; cbn [length] in Hlen; lia.
    + split; [discriminate |]. intros Hnil. rewrite Hnil in Hlen.
      cbn [length] in Hlen.
      destruct (head b <? tail b) eqn:E;
        [apply Z.ltb_lt in E | apply Z.ltb_ge in E]; lia.
  - destruct (Z.eqb_spec (head b + 1) (size b));
      [destruct (Z.eqb_spec 0 (tail b))
      | destruct (Z.eqb_spec (head b + 1) (tail b))];
      destruct (head b <? tail b) eqn:E;
      try apply Z.ltb_lt in E; try apply Z.ltb_ge in E;
      split; intros; lia.
Qed.

Lemma empty_full_spec_witness :
  (cBufferEmpty full_example = 1 \/ cBufferEmpty full_example = 0)
  /\ (cBufferFull full_example = 1 \/ cBufferFull full_example = 0)
  /\ (cBufferEmpty full_example = 1 <-> cBufferAvailableForRead full_example = 0)
  /\ (cBufferEmpty full_example = 1 <-> content full_example = [])
  /\ (cBufferFull full_example = 1 <-> cBufferAvailableForWrite full_example = 0).
Proof.
  apply (empty_full_spec full_example). apply wfb_wf. reflexivity.
Defined.

(** ** The read pointer *)

(** X10: on a bound instance [cBufferGetReadPointer] is [NULL] exactly when
    [cBufferIsContigous] reports a wrap; otherwise it designates the cell
    under the read cursor and the stored bytes lie, in order, in the
    [availableForRead] cells from there on. *)
Theorem read_pointer_spec (b : cBuffer_t) :
  wf b ->
  (cBufferGetReadPointer b = None <-> cBufferIsContigous b = C_BUFFER_WRAPED)
  /\ (cBufferIsContigous b = C_BUFFER_WRAPED
      \/ cBufferIsContigous b = C_BUFFER_SUCCESS)
  /\ (forall p, cBufferGetReadPointer b = Some p ->
        p = tail b
        /\ p + cBufferAvailableForRead b <= size b
        /\ take (Z.to_nat (cBufferAvailableForRead b))
                (drop (Z.to_nat p) (data b)) = content b).
Proof.
  intros Hwf. apply wf_wf_end in Hwf.
  unfold cBufferGetReadPointer, cBufferIsContigous, content.
  rewrite available_for_read_eq by exact Hwf.
  split; [| split].
  - destruct (_ && _); split; intros; congruence || discriminate.
  - destruct (_ && _); auto.
  - intros p.
    destruct (head b <? tail b) eqn:E;
      [apply Z.ltb_lt in E | apply Z.ltb_ge in E]; cbn [andb].
    + destruct (Z.eqb_spec (head b) 0) as [Hz | Hnz]; cbn [negb];
        [| discriminate].
      intros [= <-]. split; [reflexivity |].
      destruct Hwf as [Hs Hd Hh Ht Hg]. split; [lia |].
      rewrite Hz. change (Z.to_nat 0) with 0%nat.
      rewrite take_0, app_nil_r. apply take_ge. rewrite length_drop. lia.
    + intros [= <-]. split; [reflexivity |].
      destruct Hwf as [Hs Hd Hh Ht Hg]. split; [lia | reflexivity].
Qed.

Lemma read_pointer_spec_witness :
  2 = tail contiguous_example
  /\ 2 + cBufferAvailableForRead contiguous_example <= size contiguous_example
  /\ take (Z.to_nat (cBufferAvailableForRead contiguous_example))
          (drop (Z.to_nat 2) (data contiguous_example)) = [3; 4; 5].
Proof.
  refine (proj2 (proj2 (read_pointer_spec contiguous_example _)) 2 _).
  - apply wfb_wf. reflexivity.
  - reflexivity.
Defined.

(** ** Contiguation on every state *)

(** X11: with enough steps for the loop, [cBufferContiguate] succeeds on
    every bound instance, keeps the instance bound and the logical content
    unchanged, and leaves a buffer without wrap: [cBufferIsContigous]
    reports success, the read pointer is not [NULL], and a second call
    changes nothing. *)
Theorem contiguate_total (fuel : nat) (b : cBuffer_t) :
  wf b -> (Z.to_nat (size b) < fuel)%nat ->
  exists b',
    cBufferContiguate fuel b = Ok (b', C_BUFFER_SUCCESS)
    /\ wf b' /\ size b' = size b
    /\ content b' = content b
    /\ cBufferIsContigous b' = C_BUFFER_SUCCESS
    /\ cBufferGetReadPointer b' = Some (tail b')
    /\ cBufferContiguate fuel b' = Ok (b', C_BUFFER_SUCCESS).
Proof.
  intros Hwf Hfuel.
  assert (Hlt : head b < size b) by (destruct Hwf; lia).
  apply wf_wf_end in Hwf.
  unfold cBufferContiguate, cBufferIsContigous, cBufferGetReadPointer,
    cBufferEmpty, set_tail, set_head, set_data.
  rewrite available_for_read_eq by exact Hwf.
  nat_cursors b Hwf h t.
  destruct (Z.eqb_spec (Z.of_nat h) (Z.of_nat t)) as [Heq | Hne];
    cbn [Z.eqb negb].
  - (* empty *)
    eexists. split; [reflexivity |].
    cbn [data size head tail set_data set_head set_tail Z.eqb Z.ltb Z.compare
         negb andb].
    split; [split; cbn [data size head tail]; unfold INT32_MAX; lia |].
    split; [reflexivity |]. split.
    + unfold content; cbn [data size head tail]. rewrite Heq.
      rewrite !Z.ltb_irrefl, !Z.sub_diag.
      change (Z.to_nat 0) with 0%nat. rewrite !take_0. reflexivity.
    + repeat split; reflexivity.
  - destruct (Z.of_nat h <? Z.of_nat t) eqn:E;
      [apply Z.ltb_lt in E | apply Z.ltb_ge in E].
    + destruct (Z.eqb_spec (Z.of_nat h) 0) as [Hz | Hnz]; cbn [negb andb].
      * (* stored bytes end at the end of the array *)
        eexists. split; [reflexivity |]. cbn [data size head tail].
        rewrite (proj2 (Z.eqb_neq (Z.of_nat h) (Z.of_nat t))) by lia.
        cbn [Z.eqb negb]. ltb_true.
        rewrite (proj2 (Z.eqb_eq (Z.of_nat h) 0)) by lia. cbn [negb andb].
        split; [split; cbn [data size head tail]; unfold INT32_MAX; lia |].
        repeat split; reflexivity.
      * (* wrap: the array is rotated *)
        rewrite to_size_t_small by lia.
        rewrite rotate_loop_rotates by lia. cbn [bind].
        rewrite to_uint32_small by lia.
        eexists. split; [reflexivity |].
        cbn [data size head tail set_data set_head set_tail].
        split; [split; cbn [data size head tail]; unfold INT32_MAX;
                list_simp; lia |].
        split; [reflexivity |]. split.
        { unfold content; cbn [data size head tail]. ltb_false. ltb_true.
          rewrite ?Nat2Z.id, Z.sub_0_r. change (Z.to_nat 0) with 0%nat.
          replace (Z.to_nat _) with (length d - t + h)%nat by lia.
          list_pointwise. }
        rewrite (proj2 (Z.eqb_neq (_ + Z.of_nat h) 0)) by lia.
        cbn [Z.eqb negb]. ltb_false. cbn [andb].
        repeat split; reflexivity.
    + (* stored bytes in one run *)
      cbn [andb]. eexists. split; [reflexivity |]. cbn [data size head tail].
      rewrite (proj2 (Z.eqb_neq (Z.of_nat h) (Z.of_nat t))) by lia.
      cbn [Z.eqb negb]. ltb_false. cbn [andb].
      split; [split; cbn [data size head tail]; unfold INT32_MAX; lia |].
      repeat split; reflexivity.
Qed.

Lemma contiguate_total_witness :
  exists b',
    cBufferContiguate 11 wrapped_example = Ok (b', C_BUFFER_SUCCESS)
    /\ wf b' /\ size b' = 10
    /\ content b' = [6; 7; 8; 9; 10; 11; 12]
    /\ cBufferIsContigous b' = C_BUFFER_SUCCESS
    /\ cBufferGetReadPointer b' = Some (tail b')
    /\ cBufferContiguate 11 b' = Ok (b', C_BUFFER_SUCCESS).
Proof.
  apply (contiguate_total 11 wrapped_example).
  - apply wfb_wf. reflexivity.
  - simpl. lia.
Defined.

(** X12: the rotation loop, started with [next] and [tail_element] at cell
    [t] of any array and given more steps than the array has cells, returns
    the array rotated left by [t] cells. *)
Theorem rotate_loop_left_rotation (fuel : nat) (arr : list Z) (t : Z) :
  0 <= t < Z.of_nat (length arr) -> (length arr < fuel)%nat ->
  exists arr',
    rotate_loop fuel arr 0 t t (Z.of_nat (length arr) - 1) = Ok arr'
    /\ arr' = drop (Z.to_nat t) arr ++ take (Z.to_nat t) arr
    /\ length arr' = length arr.
Proof.
  intros Ht Hfuel. eexists. split; [| split; [reflexivity |]].
  - rewrite <- (Z2Nat.id t) at 1 2 by lia.
    apply rotate_loop_rotates; lia.
  - rewrite length_app, length_take, length_drop. lia.
Qed.

Lemma rotate_loop_left_rotation_witness :
  exists arr',
    rotate_loop 6 [1; 2; 3; 4; 5] 0 1 1
                (Z.of_nat (length [1; 2; 3; 4; 5]) - 1) = Ok arr'
    /\ arr' = [2; 3; 4; 5] ++ [1]
    /\ length arr' = 5%nat.
Proof.
  apply (rotate_loop_left_rotation 6 [1; 2; 3; 4; 5] 1); simpl; lia.
Defined.

(** ** Committing a zero-copy write *)

(** X13: bytes written by the caller through the write pointer, into the
    cells from the write cursor up to at most the end of the array and
    within the free room, become the end of the logical content once
    [cBufferEmptyWrite] commits them; the write cursor wraps to 0 at the end
    of the array and the instance stays bound. *)
Theorem zero_copy_write (b : cBuffer_t) (s : list Z) :
  wf b ->
  Z.of_nat (length s) <= cBufferAvailableForWrite b ->
  head b + Z.of_nat (length s) <= size b ->
  exists p d b1,
    cBufferGetWritePointer b = Some p
    /\ memcpy (data b) p s 0 (Z.of_nat (length s)) = Ok d
    /\ cBufferEmptyWrite (set_data b d) (Z.of_nat (length s))
       = (b1, Z.of_nat (length s))
    /\ wf b1
    /\ content b1 = content b ++ s.
Proof.
  intros Hwf Hroom Hrun.
  assert (Hlt : head b < size b) by (destruct Hwf; lia).
  apply wf_wf_end in Hwf.
  unfold cBufferGetWritePointer, cBufferEmptyWrite, MODULO_INC,
    set_head, set_data.
  rewrite available_for_write_eq in * by exact Hwf.
  nat_cursors b Hwf h t.
  exists (Z.of_nat h). eexists. eexists.
  split; [reflexivity |].
  split; [apply (memcpy_nat d _ _ _ _ h 0%nat (length s)); lia |].
  cbn [data size head tail].
  rewrite to_size_t_small by lia.
  assert (Hmod : 0 <= (Z.of_nat h + Z.of_nat (length s)) mod Z.of_nat (length d)
                 < Z.of_nat (length d)) by (apply Z.mod_pos_bound; lia).
  rewrite to_uint32_small, to_int32_small
    by (destruct (Z.of_nat h <? Z.of_nat t); lia).
  split; [reflexivity |].
  split; [split; cbn [data size head tail]; unfold INT32_MAX; list_simp; lia |].
  unfold content; cbn [data size head tail].
  destruct (Z.of_nat h <? Z.of_nat t) eqn:E;
    [apply Z.ltb_lt in E | apply Z.ltb_ge in E].
  - rewrite Z.mod_small by lia. ltb_true.
    replace (Z.to_nat (_ + _)) with (h + length s)%nat by lia.
    rewrite !Nat2Z.id. list_pointwise.
  - destruct (Z.eq_dec (Z.of_nat h + Z.of_nat (length s)) (Z.of_nat (length d)))
      as [Hend | Hmid].
    + rewrite Hend, Z.mod_same by lia. ltb_true.
      change (Z.to_nat 0) with 0%nat.
      replace (Z.to_nat (_ - _)) with (h - t)%nat by lia.
      rewrite !Nat2Z.id. list_pointwise.
    + rewrite Z.mod_small by lia. ltb_false.
      replace (Z.to_nat (_ + _ - _)) with (h + length s - t)%nat by lia.
      replace (Z.to_nat (_ - _)) with (h - t)%nat by lia.
      rewrite !Nat2Z.id. list_pointwise.
Qed.

Lemma zero_copy_write_witness :
  exists p d b1,
    cBufferGetWritePointer contiguous_example = Some p
    /\ memcpy (data contiguous_example) p [6; 7; 8; 9; 10] 0 5 = Ok d
    /\ cBufferEmptyWrite (set_data contiguous_example d) 5 = (b1, 5)
    /\ wf b1
    /\ content b1 = [3; 4; 5] ++ [6; 7; 8; 9; 10].
Proof.
  apply (zero_copy_write contiguous_example [6; 7; 8; 9; 10]).
  - apply wfb_wf. reflexivity.
  - vm_compute. discriminate.
  - vm_compute. discriminate.
Defined.

(** ** An append that ends exactly at the end of the array *)

Lemma append_to_end_run (b : cBuffer_t) (s : list Z) :
  wf b ->
  1 <= Z.of_nat (length s) ->
  head b + Z.of_nat (length s) = size b ->
  Z.of_nat (length s) <= cBufferAvailableForWrite b ->
  exists d',
    cBufferAppend b s (Z.of_nat (length s))
      = Ok (mk_cBuffer d' (size b) (size b) (tail b), Z.of_nat (length s))
    /\ wf_end (mk_cBuffer d' (size b) (size b) (tail b))
    /\ 1 <= tail b
    /\ content (mk_cBuffer d' (size b) (size b) (tail b)) = content b ++ s.
Proof.
  intros Hwf Hpos Hend Hroom.
  assert (Hlt : head b < size b) by (destruct Hwf; lia).
  assert (Hend1 : head b + Z.of_nat (length s) <= size b) by lia.
  assert (Hend2 : size b <= head b + Z.of_nat (length s)) by lia.
  clear Hend.
  apply wf_wf_end in Hwf.
  unfold cBufferAppend, set_head, set_data.
  rewrite available_for_write_eq in * by exact Hwf.
  nat_cursors b Hwf h t.
  assert (Hend : Z.of_nat h + Z.of_nat (length s) = Z.of_nat (length d))
    by lia.
  assert (E : Z.of_nat t <= Z.of_nat h).
  { destruct (Z.of_nat h <? Z.of_nat t) eqn:E;
      [apply Z.ltb_lt in E | apply Z.ltb_ge in E]; lia. }
  revert Hroom. ltb_false. intros Hroom.
  eqb_false. rewrite (to_size_t_small (_ - 1)) by lia. ltb_false.
  rewrite !(to_size_t_small (_ + Z.of_nat (length s))) by lia. ltb_false.
  rewrite (memcpy_nat d _ _ _ _ h 0%nat (length s)) by lia.
  cbn [bind data size head tail].
  rewrite to_uint32_small, to_int32_small by lia. rewrite Hend.
  eexists. split; [reflexivity |].
  split; [split; cbn [data size head tail]; unfold INT32_MAX; list_simp; lia |].
  split; [lia |].
  unfold content; cbn [data size head tail]. ltb_false. ltb_false.
  replace (Z.to_nat (Z.of_nat (length d) - _)) with (length d - t)%nat by lia.
  replace (Z.to_nat (_ - _)) with (h - t)%nat by lia.
  rewrite !Nat2Z.id. list_pointwise.
Qed.

(** X14: when the appended bytes end exactly at the last cell of the array,
    [cBufferAppend] succeeds and stores them, but leaves the write cursor at
    [size] instead of 0.  If room is left, the next [cBufferAppendByte]
    writes to the cell with index [size], outside the array. *)
Theorem append_to_end_then_append_byte (b : cBuffer_t) (s : list Z) (x : Z) :
  wf b ->
  1 <= Z.of_nat (length s) ->
  head b + Z.of_nat (length s) = size b ->
  Z.of_nat (length s) <= cBufferAvailableForWrite b ->
  exists b1,
    cBufferAppend b s (Z.of_nat (length s)) = Ok (b1, Z.of_nat (length s))
    /\ head b1 = size b1
    /\ content b1 = content b ++ s
    /\ (1 <= cBufferAvailableForWrite b1 -> cBufferAppendByte b1 x = Fault).
Proof.
  intros Hwf Hpos Hend Hroom.
  destruct (append_to_end_run b s Hwf Hpos Hend Hroom)
    as (d' & Hrun & Hwf1 & Ht & Hc).
  eexists. split; [exact Hrun |]. split; [reflexivity |]. split; [exact Hc |].
  intros Hroom1. unfold cBufferAppendByte.
  rewrite available_for_write_eq in * by exact Hwf1.
  destruct Hwf1 as [Hs Hd Hh Htl Hg].
  cbn [data size head tail] in *. unfold INT32_MAX in *.
  revert Hroom1. ltb_false. intros Hroom1.
  rewrite to_size_t_small by lia. ltb_false.
  rewrite (proj2 (Z.eqb_neq (size b) (tail b))) by lia.
  cbn [data size head tail]. unfold store.
  rewrite Hd, Z.ltb_irrefl, andb_false_r. reflexivity.
Qed.

Lemma append_to_end_then_append_byte_witness :
  exists b1,
    cBufferAppend (mk_cBuffer (replicate 10 0) 10 5 5) [1; 2; 3; 4; 5] 5
      = Ok (b1, 5)
    /\ head b1 = size b1
    /\ content b1 = [] ++ [1; 2; 3; 4; 5]
    /\ (1 <= cBufferAvailableForWrite b1 -> cBufferAppendByte b1 6 = Fault).
Proof.
  apply (append_to_end_then_append_byte
           (mk_cBuffer (replicate 10 0) 10 5 5) [1; 2; 3; 4; 5] 6).
  - apply wfb_wf. reflexivity.
  - simpl. lia.
  - reflexivity.
  - vm_compute. discriminate.
Defined.

(** X15: after such an append, reading all stored bytes with
    [cBufferReadBytes] delivers them but leaves the cursors at [size] and 0:
    the drained buffer is not reported empty, [cBufferAvailableForRead]
    returns [size] and [cBufferAvailableForWrite] returns -1. *)
Theorem append_to_end_then_drain (b : cBuffer_t) (s out : list Z) :
  wf b ->
  1 <= Z.of_nat (length s) ->
  head b + Z.of_nat (length s) = size b ->
  Z.of_nat (length s) <= cBufferAvailableForWrite b ->
  (length (content b ++ s) <= length out)%nat ->
  exists b1 b2 out',
    cBufferAppend b s (Z.of_nat (length s)) = Ok (b1, Z.of_nat (length s))
    /\ cBufferReadBytes b1 out (cBufferAvailableForRead b1)
       = Ok (b2, out', cBufferAvailableForRead b1)
    /\ out' = (content b ++ s) ++ drop (length (content b ++ s)) out
    /\ head b2 = size b /\ tail b2 = 0
    /\ cBufferEmpty b2 = 0
    /\ cBufferAvailableForRead b2 = size b
    /\ cBufferAvailableForWrite b2 = -1.
Proof.
  intros Hwf Hpos Hend Hroom Hout.
  destruct (append_to_end_run b s Hwf Hpos Hend Hroom)
    as (d' & Hrun & Hwf1 & Ht & Hc).
  set (b1 := mk_cBuffer d' (size b) (size b) (tail b)) in *.
  pose proof (content_length b1 Hwf1) as Hlen.
  assert (Hav : cBufferAvailableForRead b1 = size b - tail b).
  { rewrite available_for_read_eq by exact Hwf1. subst b1.
    cbn [data size head tail]. destruct Hwf. ltb_false. reflexivity. }
  assert (Hcp : bytes_copied b1 (cBufferAvailableForRead b1)
                = cBufferAvailableForRead b1).
  { unfold bytes_copied. subst b1. cbn [data size head tail].
    destruct Hwf. ltb_false. reflexivity. }
  assert (Hsz : 0 < size b <= INT32_MAX) by (destruct Hwf; assumption).
  assert (Htl : 0 <= tail b < size b) by (destruct Hwf; assumption).
  unfold INT32_MAX in *.
  exists b1. eexists. eexists. split; [exact Hrun |].
  split.
  { apply read_bytes_ok; [exact Hwf1 | lia |].
    rewrite Hcp, <- Hlen, Hc. lia. }
  rewrite Hcp, <- Hlen, Nat2Z.id, Hc.
  split.
  { rewrite take_ge by lia. reflexivity. }
  cbn [data size head tail]. split; [reflexivity |].
  assert (Hm : (tail b + Z.of_nat (length (content b ++ s))) mod size b = 0).
  { rewrite <- Hc, Hlen, Hav.
    replace (tail b + (size b - tail b)) with (size b) by lia.
    apply Z.mod_same. lia. }
  subst b1. cbn [data size head tail]. rewrite Hm.
  split; [reflexivity |].
  unfold cBufferEmpty, cBufferAvailableForRead, cBufferAvailableForWrite.
  cbn [data size head tail].
  rewrite (proj2 (Z.eqb_neq (size b) 0)) by lia. ltb_false.
  split; [reflexivity |]. split.
  - rewrite Z.sub_0_r, to_uint32_small, to_int32_small by lia. reflexivity.
  - replace (size b - size b + 0 - 1) with (-1) by lia. reflexivity.
Qed.

Lemma append_to_end_then_drain_witness :
  exists b1 b2 out',
    cBufferAppend contiguous_example [6; 7; 8; 9; 10] 5 = Ok (b1, 5)
    /\ cBufferReadBytes b1 (replicate 8 0) (cBufferAvailableForRead b1)
       = Ok (b2, out', cBufferAvailableForRead b1)
    /\ out' = ([3; 4; 5] ++ [6; 7; 8; 9; 10]) ++ drop 8 (replicate 8 0)
    /\ head b2 = 10 /\ tail b2 = 0
    /\ cBufferEmpty b2 = 0
    /\ cBufferAvailableForRead b2 = 10
    /\ cBufferAvailableForWrite b2 = -1.
Proof.
  apply (append_to_end_then_drain contiguous_example [6; 7; 8; 9; 10]
           (replicate 8 0)).
  - apply wfb_wf. reflexivity.
  - simpl. lia.
  - reflexivity.
  - vm_compute. discriminate.
  - simpl. lia.
Defined.

(** ** Modular cursor arithmetic *)

(** X16: for a cursor inside the array, [MODULO_DEC] steps back by
    [decrement] modulo [modulus] and [MODULO_INC] by the same amount undoes
    it. *)
Theorem modulo_dec_inc (value decrement modulus : Z) :
  0 < modulus <= INT32_MAX ->
  0 <= value < modulus ->
  0 <= decrement <= INT32_MAX ->
  MODULO_DEC value decrement modulus = (value - decrement) mod modulus
  /\ 0 <= MODULO_DEC value decrement modulus < modulus
  /\ MODULO_INC to_size_t (MODULO_DEC value decrement modulus)
                decrement modulus = value.
Proof.
  intros Hm Hv Hd. unfold INT32_MAX in *.
  pose proof (Z.mod_pos_bound decrement modulus ltac:(lia)) as Hdm.
  assert (Hdec : MODULO_DEC value decrement modulus
                 = (value - decrement) mod modulus).
  { unfold MODULO_DEC. rewrite to_size_t_small by lia.
    replace (value + modulus - decrement mod modulus)
      with (value - decrement mod modulus + 1 * modulus) by lia.
    rewrite Z.mod_add by lia. apply Zminus_mod_idemp_r. }
  pose proof (Z.mod_pos_bound (value - decrement) modulus ltac:(lia)) as Hb.
  rewrite Hdec. split; [reflexivity |]. split; [exact Hb |].
  unfold MODULO_INC. rewrite to_size_t_small by lia.
  rewrite Zplus_mod_idemp_l.
  replace (value - decrement + decrement) with value by lia.
  apply Z.mod_small. exact Hv.
Qed.

Lemma modulo_dec_inc_witness :
  MODULO_DEC 2 5 10 = (2 - 5) mod 10
  /\ 0 <= MODULO_DEC 2 5 10 < 10
  /\ MODULO_INC to_size_t (MODULO_DEC 2 5 10) 5 10 = 2.
Proof.
  apply (modulo_dec_inc 2 5 10); unfold INT32_MAX; lia.
Defined.

(** ** Integers in front of the content *)

Lemma be16_roundtrip (v : Z) :
  0 <= v < 2 ^ 16 ->
  Z.lor (Z.shiftl (to_uint8 (Z.shiftr v 8)) 8) (to_uint8 v) = v.
Proof.
  intros Hv. apply Z.bits_inj'. intros n Hn.
  rewrite Z.lor_spec, byte_bit by lia.
  unfold to_uint8. rewrite Z.testbit_mod_pow2 by lia.
  assert (Hhigh : Z.testbit v n = (n <? 16) && Z.testbit v n).
  { rewrite <- (Z.mod_small v (2 ^ 16)) at 1 by exact Hv.
    apply Z.testbit_mod_pow2. lia. }
  rewrite Hhigh.
  destruct (Z.testbit v n); rewrite ?andb_false_r, ?andb_true_r;
    [| reflexivity].
  destruct (Z.leb_spec 8 n), (Z.ltb_spec n 16), (Z.ltb_spec n 8);
    cbn; lia || reflexivity.
Qed.

(** X17: [cBufferPrependUint16] on a bound instance with room for 2 bytes
    returns 2; [cBufferReadAll] then delivers two bytes whose big-endian
    decoding is the value, followed by the previous content. *)
Theorem prepend_uint16_read_all (b : cBuffer_t) (v : Z) (out : list Z)
    (max_read_size : Z) :
  wf b -> 2 <= cBufferAvailableForWrite b -> 0 <= v < 2 ^ 16 ->
  cBufferAvailableForRead b + 2 <= max_read_size ->
  cBufferAvailableForRead b + 2 <= Z.of_nat (length out) ->
  exists b1 b2 out',
    cBufferPrependUint16 b v = Ok (b1, 2)
    /\ cBufferReadAll b1 out max_read_size
       = Ok (b2, out', cBufferAvailableForRead b + 2)
    /\ decode_be16 out' = Some v
    /\ take (length (content b)) (drop 2 out') = content b.
Proof.
  intros Hwf Hroom Hv Hmax Hout. unfold cBufferPrependUint16.
  set (tmp := [to_uint8 (Z.shiftr v 8); to_uint8 v]).
  destruct (prepend_ok b tmp Hwf) as (b1 & Hrun & Hwf1 & Hc); [exact Hroom |].
  change (Z.of_nat (length tmp)) with 2 in Hrun.
  assert (Hwe1 := wf_wf_end b1 Hwf1).
  pose proof (content_length b (wf_wf_end b Hwf)) as Hlen.
  assert (Hav : cBufferAvailableForRead b1 = cBufferAvailableForRead b + 2).
  { rewrite <- (content_length b1 Hwe1), Hc, length_app.
    change (length tmp) with 2%nat. lia. }
  exists b1. eexists. eexists. split; [exact Hrun |].
  split; [rewrite <- Hav; apply read_all_ok; [exact Hwe1 | lia | lia] |].
  rewrite Hc. split.
  - cbn [decode_be16 tmp app]. f_equal. apply be16_roundtrip. exact Hv.
  - rewrite <- app_assoc. change (drop 2 (tmp ++ ?l)) with l.
    apply take_app_length.
Qed.

Lemma prepend_uint16_read_all_witness :
  exists b1 b2 out',
    cBufferPrependUint16 prepended_example 258 = Ok (b1, 2)
    /\ cBufferReadAll b1 (replicate 6 0) 6
       = Ok (b2, out', cBufferAvailableForRead prepended_example + 2)
    /\ decode_be16 out' = Some 258
    /\ take (length (content prepended_example)) (drop 2 out')
       = content prepended_example.
Proof.
  apply (prepend_uint16_read_all prepended_example 258 (replicate 6 0) 6).
  - apply wfb_wf. reflexivity.
  - vm_compute. discriminate.
  - lia.
  - vm_compute. discriminate.
  - vm_compute. discriminate.
Defined.

(** X18: [cBufferPrependUint32] on a bound instance with room for 4 bytes
    returns 4; [cBufferReadAll] then delivers four bytes whose big-endian
    decoding is the value, followed by the previous content. *)
Theorem prepend_uint32_read_all (b : cBuffer_t) (v : Z) (out : list Z)
    (max_read_size : Z) :
  wf b -> 4 <= cBufferAvailableForWrite b -> 0 <= v < 2 ^ 32 ->
  cBufferAvailableForRead b + 4 <= max_read_size ->
  cBufferAvailableForRead b + 4 <= Z.of_nat (length out) ->
  exists b1 b2 out',
    cBufferPrependUint32 b v = Ok (b1, 4)
    /\ cBufferReadAll b1 out max_read_size
       = Ok (b2, out', cBufferAvailableForRead b + 4)
    /\ decode_be32 out' = Some v
    /\ take (length (content b)) (drop 4 out') = content b.
Proof.
  intros Hwf Hroom Hv Hmax Hout. unfold cBufferPrependUint32.
  set (tmp := [to_uint8 (Z.shiftr v 24); to_uint8 (Z.shiftr v 16);
               to_uint8 (Z.shiftr v 8); to_uint8 v]).
  destruct (prepend_ok b tmp Hwf) as (b1 & Hrun & Hwf1 & Hc); [exact Hroom |].
  change (Z.of_nat (length tmp)) with 4 in Hrun.
  assert (Hwe1 := wf_wf_end b1 Hwf1).
  pose proof (content_length b (wf_wf_end b Hwf)) as Hlen.
  assert (Hav : cBufferAvailableForRead b1 = cBufferAvailableForRead b + 4).
  { rewrite <- (content_length b1 Hwe1), Hc, length_app.
    change (length tmp) with 4%nat. lia. }
  exists b1. eexists. eexists. split; [exact Hrun |].
  split; [rewrite <- Hav; apply read_all_ok; [exact Hwe1 | lia | lia] |].
  rewrite Hc. split.
  - cbn [decode_be32 tmp app]. f_equal. apply be32_roundtrip. exact Hv.
  - rewrite <- app_assoc. change (drop 4 (tmp ++ ?l)) with l.
    apply take_app_length.
Qed.

Lemma prepend_uint32_read_all_witness :
  exists b1 b2 out',
    cBufferPrependUint32 prepended_example 16909060 = Ok (b1, 4)
    /\ cBufferReadAll b1 (replicate 6 0) 6
       = Ok (b2, out', cBufferAvailableForRead prepended_example + 4)
    /\ decode_be32 out' = Some 16909060
    /\ take (length (content prepended_example)) (drop 4 out')
       = content prepended_example.
Proof.
  apply (prepend_uint32_read_all prepended_example 16909060 (replicate 6 0) 6).
  - apply wfb_wf. reflexivity.
  - vm_compute. discriminate.
  - lia.
  - vm_compute. discriminate.
  - vm_compute. discriminate.
Defined.

End CBuffer.
